(** * WebScan: the recursive discovery controller ([lib/controller/controller.py])

  A shallow embedding of [Controller] and of the library calls it relies on,
  followed by the properties of the frontier, the result filter, the redirect
  resolver, the per-target loop and the report set-up. *)

From Stdlib Require Import ZArith Ascii String List Bool Lia DecimalString DecimalNat.
From stdpp Require Import base option list gmap strings.

Local Open Scope Z_scope.

(** ** Python [str] operations used by the controller

  A Python string is modelled as a [string]; every separator the controller
  looks at (['/'], ['#'], ['?'], [';'], [':']) is an ASCII character. *)

Module Py.

Definition char_in (c : ascii) (chars : string) : bool :=
  existsb (Ascii.eqb c) (list_ascii_of_string chars).

(** [len(s)] *)
Definition len (s : string) : nat := String.length s.

(** [s.startswith(p)] *)
Fixpoint startswith (s p : string) {struct p} : bool :=
  match p with
  | EmptyString => true
  | String a p' =>
      match s with
      | EmptyString => false
      | String b s' => Ascii.eqb a b && startswith s' p'
      end
  end.

(** [s[n:]] *)
Fixpoint drop (n : nat) (s : string) : string :=
  match n, s with
  | O, _ => s
  | S _, EmptyString => EmptyString
  | S n', String _ s' => drop n' s'
  end.

(** [s[:n]] *)
Fixpoint take (n : nat) (s : string) : string :=
  match n, s with
  | O, _ => EmptyString
  | S _, EmptyString => EmptyString
  | S n', String c s' => String c (take n' s')
  end.

(** [s[i:j]] for [0 <= i], [0 <= j] *)
Definition slice (i j : nat) (s : string) : string := take (j - i) (drop i s).

Definition rev (s : string) : string :=
  string_of_list_ascii (List.rev (list_ascii_of_string s)).

(** [s.endswith(p)] *)
Definition endswith (s p : string) : bool := startswith (rev s) (rev p).

(** [s[1:-1]] *)
Definition strip_ends (s : string) : string := take (len s - 2) (drop 1 s).

(** [s.rstrip(chars)] *)
Fixpoint rstrip (s chars : string) : string :=
  match s with
  | EmptyString => EmptyString
  | String c s' =>
      match rstrip s' chars with
      | EmptyString => if char_in c chars then EmptyString else String c EmptyString
      | r => String c r
      end
  end.

(** [s.count(c)] for a one-character [c] *)
Fixpoint count (s : string) (c : ascii) : nat :=
  match s with
  | EmptyString => O
  | String b s' => ((if Ascii.eqb b c then 1 else 0) + count s' c)%nat
  end.

(** [sub in s] *)
Fixpoint contains (sub s : string) : bool :=
  startswith s sub ||
  match s with
  | EmptyString => false
  | String _ s' => contains sub s'
  end.

(** [s.find(c)] for a one-character [c]; [None] stands for [-1]. *)
Fixpoint find (s : string) (c : ascii) : option nat :=
  match s with
  | EmptyString => None
  | String b s' => if Ascii.eqb b c then Some O else S <$> find s' c
  end.

(** [s.find(c, start)] *)
Definition find_from (s : string) (c : ascii) (start : nat) : option nat :=
  if (len s <? start)%nat then None
  else (fun i => (start + i)%nat) <$> find (drop start s) c.

(** [s.rfind(c)] *)
Fixpoint rfind (s : string) (c : ascii) : option nat :=
  match s with
  | EmptyString => None
  | String b s' =>
      match rfind s' c with
      | Some i => Some (S i)
      | None => if Ascii.eqb b c then Some O else None
      end
  end.

(** [s.split(c)] for a one-character separator *)
Fixpoint split (s : string) (c : ascii) : list string :=
  match s with
  | EmptyString => [EmptyString]
  | String b s' =>
      if Ascii.eqb b c then EmptyString :: split s' c
      else match split s' c with
           | [] => [String b EmptyString]
           | w :: ws => String b w :: ws
           end
  end.

(** [s.split(c, 1)] when [c in s]: the text before and after the first [c] *)
Definition split1 (s : string) (c : ascii) : string * string :=
  match find s c with
  | Some i => (take i s, drop (S i) s)
  | None => (s, EmptyString)
  end.

(** [sep.join(parts)] *)
Fixpoint join (sep : string) (parts : list string) : string :=
  match parts with
  | [] => EmptyString
  | [p] => p
  | p :: ps => p +:+ sep +:+ join sep ps
  end.

(** [s.replace(a, b)] for one-character [a] and [b] *)
Fixpoint replace (s : string) (a b : ascii) : string :=
  match s with
  | EmptyString => EmptyString
  | String c s' => String (if Ascii.eqb c a then b else c) (replace s' a b)
  end.

(** [s.replace(a, "")] for a one-character [a] *)
Fixpoint remove (s : string) (a : ascii) : string :=
  match s with
  | EmptyString => EmptyString
  | String c s' => if Ascii.eqb c a then remove s' a else String c (remove s' a)
  end.

Definition is_upper (c : ascii) : bool :=
  (65 <=? nat_of_ascii c)%nat && (nat_of_ascii c <=? 90)%nat.

Definition is_lower (c : ascii) : bool :=
  (97 <=? nat_of_ascii c)%nat && (nat_of_ascii c <=? 122)%nat.

Definition lower_char (c : ascii) : ascii :=
  if is_upper c then ascii_of_nat (nat_of_ascii c + 32) else c.

(** [s.lower()] on ASCII text *)
Fixpoint lower (s : string) : string :=
  match s with
  | EmptyString => EmptyString
  | String c s' => String (lower_char c) (lower s')
  end.

(** Truthiness of a string: [bool(s)] *)
Definition truthy (s : string) : bool :=
  match s with EmptyString => false | _ => true end.

(** [a or b] on strings *)
Definition or_else (a b : string) : string := if truthy a then a else b.

End Py.

(** ** [urllib.parse] (Python standard library)

  [urljoin] is not part of the repository; it is embedded here from
  CPython 3.11's [Lib/urllib/parse.py] so that redirect targets can be
  resolved on concrete inputs.  Net-location validation, which makes
  [urlsplit] raise [ValueError] on malformed bracketed hosts and on
  non-ASCII hosts that normalise to delimiters, is outside the model:
  the functions below give the result Python returns when it returns. *)

Module urllib_parse.

Import Py.

Definition uses_relative : list string :=
  [""; "ftp"; "http"; "gopher"; "nntp"; "imap"; "wais"; "file"; "https";
   "shttp"; "mms"; "prospero"; "rtsp"; "rtspu"; "sftp"; "svn"; "svn+ssh";
   "ws"; "wss"].

Definition uses_netloc : list string :=
  [""; "ftp"; "http"; "gopher"; "nntp"; "telnet"; "imap"; "wais"; "file";
   "mms"; "https"; "shttp"; "snews"; "prospero"; "rtsp"; "rtspu"; "rsync";
   "svn"; "svn+ssh"; "sftp"; "nfs"; "git"; "git+ssh"; "ws"; "wss"].

Definition uses_params : list string :=
  [""; "ftp"; "hdl"; "prospero"; "http"; "imap"; "https"; "shttp"; "rtsp";
   "rtspu"; "sip"; "sips"; "mms"; "sftp"; "tel"].

Definition scheme_chars : string :=
  "abcdefghijklmnopqrstuvwxyzABCDEFGHIJKLMNOPQRSTUVWXYZ0123456789+-.".

(** [c in _WHATWG_C0_CONTROL_OR_SPACE]: the characters 0x00 .. 0x20 *)
Definition c0_control_or_space (c : ascii) : bool := (nat_of_ascii c <=? 32)%nat.

Fixpoint lstrip_c0 (s : string) : string :=
  match s with
  | EmptyString => EmptyString
  | String c s' => if c0_control_or_space c then lstrip_c0 s' else s
  end.

Definition strip_c0 (s : string) : string := rev (lstrip_c0 (rev (lstrip_c0 s))).

(** [for b in _UNSAFE_URL_BYTES_TO_REMOVE: url = url.replace(b, "")] *)
Definition remove_unsafe (s : string) : string :=
  remove (remove (remove s "009"%char) "013"%char) "010"%char.

Definition in_list (s : string) (l : list string) : bool :=
  existsb (String.eqb s) l.

Record SplitResult := {
  s_scheme : string; s_netloc : string; s_path : string;
  s_query : string; s_fragment : string
}.

Record ParseResult := {
  scheme : string; netloc : string; path : string;
  params : string; query : string; fragment : string
}.

Definition _splitnetloc (url : string) (start : nat) : string * string :=
  let delim :=
    fold_left
      (fun delim c =>
         match find_from url c start with
         | Some wdelim => Nat.min delim wdelim
         | None => delim
         end)
      ["/"%char; "?"%char; "#"%char] (len url) in
  (slice start delim url, drop delim url).

Definition urlsplit (url scheme : string) : SplitResult :=
  let url := lstrip_c0 url in
  let scheme := strip_c0 scheme in
  let url := remove_unsafe url in
  let scheme := remove_unsafe scheme in
  let '(scheme, url) :=
    match find url ":"%char, url with
    | Some (S i' as i), String c0 _ =>
        if (is_upper c0 || is_lower c0)
           && forallb (fun c => char_in c scheme_chars)
                      (list_ascii_of_string (take i url))
        then (lower (take i url), drop (S i) url)
        else (scheme, url)
    | _, _ => (scheme, url)
    end in
  let '(netloc, url) :=
    if String.eqb (take 2 url) "//" then _splitnetloc url 2
    else (EmptyString, url) in
  let '(url, fragment) :=
    if contains "#" url then split1 url "#"%char else (url, EmptyString) in
  let '(url, query) :=
    if contains "?" url then split1 url "?"%char else (url, EmptyString) in
  {| s_scheme := scheme; s_netloc := netloc; s_path := url;
     s_query := query; s_fragment := fragment |}.

Definition _splitparams (url : string) : string * string :=
  if contains "/" url then
    match rfind url "/"%char with
    | Some r =>
        match find_from url ";"%char r with
        | Some i => (take i url, drop (S i) url)
        | None => (url, EmptyString)
        end
    | None => (url, EmptyString)
    end
  else
    match find url ";"%char with
    | Some i => (take i url, drop (S i) url)
    | None => (take (len url - 1) url, url)
    end.

Definition urlparse (url scheme : string) : ParseResult :=
  let r := urlsplit url scheme in
  let '(url, params) :=
    if in_list (s_scheme r) uses_params && contains ";" (s_path r)
    then _splitparams (s_path r)
    else (s_path r, EmptyString) in
  {| scheme := s_scheme r; netloc := s_netloc r; path := url;
     params := params; query := s_query r; fragment := s_fragment r |}.

Definition urlunsplit (scheme netloc url query fragment : string) : string :=
  let url :=
    if truthy netloc
       || (truthy scheme && in_list scheme uses_netloc
           && negb (String.eqb (take 2 url) "//"))
    then
      let url :=
        if truthy url && negb (String.eqb (take 1 url) "/")
        then "/" +:+ url else url in
      "//" +:+ netloc +:+ url
    else url in
  let url := if truthy scheme then scheme +:+ ":" +:+ url else url in
  let url := if truthy query then url +:+ "?" +:+ query else url in
  let url := if truthy fragment then url +:+ "#" +:+ fragment else url in
  url.

Definition urlunparse (p : ParseResult) : string :=
  let url := if truthy (params p) then path p +:+ ";" +:+ params p else path p in
  urlunsplit (scheme p) (netloc p) url (query p) (fragment p).

(** [segments[1:-1] = filter(None, segments[1:-1])] *)
Definition filter_inner (segments : list string) : list string :=
  match segments with
  | first :: (_ :: _) as rest =>
      first :: List.filter truthy (removelast rest) ++ [List.last rest EmptyString]
  | _ => segments
  end.

(** The loop over [segments] that builds [resolved_path]. *)
Definition resolve_step (resolved_path : list string) (seg : string) : list string :=
  if String.eqb seg ".." then removelast resolved_path
  else if String.eqb seg "." then resolved_path
  else resolved_path ++ [seg].

Definition urljoin (base url : string) : string :=
  if negb (truthy base) then url
  else if negb (truthy url) then base
  else
    let b := urlparse base EmptyString in
    let u := urlparse url (scheme b) in
    if negb (String.eqb (scheme u) (scheme b)) || negb (in_list (scheme u) uses_relative)
    then url
    else if in_list (scheme u) uses_netloc && truthy (netloc u)
    then urlunparse u
    else
      let netloc' := if in_list (scheme u) uses_netloc then netloc b else netloc u in
      if negb (truthy (path u)) && negb (truthy (params u)) then
        urlunparse {| scheme := scheme u; netloc := netloc'; path := path b;
                      params := params b;
                      query := if truthy (query u) then query u else query b;
                      fragment := fragment u |}
      else
        let base_parts := split (path b) "/"%char in
        let base_parts :=
          if negb (String.eqb (List.last base_parts EmptyString) EmptyString)
          then removelast base_parts else base_parts in
        let segments :=
          if String.eqb (take 1 (path u)) "/" then split (path u) "/"%char
          else filter_inner (base_parts ++ split (path u) "/"%char) in
        let resolved_path := fold_left resolve_step segments [] in
        let resolved_path :=
          if in_list (List.last segments EmptyString) ["."; ".."]
          then resolved_path ++ [EmptyString] else resolved_path in
        urlunparse {| scheme := scheme u; netloc := netloc';
                      path := or_else (join "/" resolved_path) "/";
                      params := params u; query := query u; fragment := fragment u |}.

End urllib_parse.

(** ** Collaborators of the controller

  [Requester], [Fuzzer], [ReportManager], the report classes, [FileUtils]
  and the output object live outside [controller.py].  The controller only
  calls them, so each is represented by what the controller hands to it or
  reads from it. *)

Module Response.
Record t := { body : string; redirect : option string }.
End Response.

Module Path.
Record t := { path : string; status : option Z; response : Response.t }.
End Path.

Module Requester.
Record t := { host : string; port : Z; protocol : string; basePath : string }.
Definition set_basePath (r : t) (b : string) : t :=
  {| host := host r; port := port r; protocol := protocol r; basePath := b |}.
End Requester.

Inductive Report :=
| SimpleReport (host : string) (port : Z) (protocol basePath output : string)
| JSONReport (host : string) (port : Z) (protocol basePath output : string)
| PlainTextReport (host : string) (port : Z) (protocol basePath output : string).

(** A [ReportManager] is the list of sinks attached with [add_output] and the
  sequence of calls received since it was created. *)
Module ReportManager.
Inductive call :=
| add_path (path : string) (status : Z) (response : Response.t)
| save
| close.
Record t := { outputs : list Report; calls : list call }.
Definition new : t := {| outputs := []; calls := [] |}.
Definition add_output (r : Report) (m : t) : t :=
  {| outputs := outputs m ++ [r]; calls := calls m |}.
Definition record (c : call) (m : t) : t :=
  {| outputs := outputs m; calls := calls m ++ [c] |}.
End ReportManager.

(** The error log: a file opened for writing. *)
Module File.
Record t := { closed : bool; written : list string; close_calls : nat }.
Definition open : t := {| closed := false; written := []; close_calls := 0 |}.
Definition write (line : string) (f : t) : t :=
  {| closed := closed f; written := written f ++ [line]; close_calls := close_calls f |}.
Definition close (f : t) : t :=
  {| closed := true; written := written f; close_calls := S (close_calls f) |}.
End File.

(** Calls on [self.output], in the order they are made. *)
Inductive OutputCall :=
| out_error (msg : string)
| out_warning (msg : string)
| out_target (url : string)
| out_status_report (path : string) (response : Response.t)
| out_lastPath (path : string) (index : Z) (length : nat)
| out_add_connection_error
| out_in_line (msg : string)
| out_basePath (basePath : string).

(** Calls on [self.fuzzer]. *)
Inductive FuzzerCall := fuzzer_start | fuzzer_pause | fuzzer_play | fuzzer_stop.

(** [re.search] and [bytes.decode]: the body scans of the result filter.
  Bodies are taken to be decodable and patterns to be well formed, so both
  are total: [decode body] is the decoded text and [re_search pattern text]
  says whether [re.search(pattern, text)] is not [None]. *)
Class BodyScan := {
decode : string -> string;
re_search : string -> string -> bool
}.

(** [os.linesep] and [os.path.sep]. *)
Class OS := { linesep : string; sep : ascii }.

(** [lib.utils.FileUtils] over a file system with finitely many entries. *)
Class FileUtils := {
FS : Type;
exists_ : FS -> string -> bool;
create_directory : FS -> string -> FS;
can_write : FS -> string -> bool;
build_path : list string -> string;
listing : FS -> list string;
exists_listing : forall fs p, exists_ fs p = true -> In p (listing fs)
}.

Module Arguments.
Record t := {
  recursive_level_max : Z;
  recursive : bool;
  excludeSubdirs : option (list string);
  excludeStatusCodes : list Z;
  excludeTexts : list string;
  excludeRegexps : list string;
  suppressEmpty : bool;
  scanSubdirs : option (list string);
  urlList : list string;
  autoSave : bool;
  autoSaveFormat : string;
  simpleOutputFile : option string;
  plainTextOutputFile : option string;
  jsonOutputFile : option string
}.
End Arguments.

(** Exceptions that cross the controller's [try] blocks. *)
Inductive exn :=
| RequestException (message : string)
| SkipTargetInterrupt
| KeyboardInterrupt
| SystemExit (code : Z)
| EOFError
| AttributeError
| ValueError.

Inductive result (A : Type) :=
| Return (a : A)
| Raise (e : exn).
Arguments Return {A} a.
Arguments Raise {A} e.

(** ** The controller *)

Declare Scope ctl_scope.

Section Controller.

Context `{!BodyScan, !OS, !FileUtils}.

(** Attributes assigned once, before the loop over the targets. *)
Record Settings := {
  arguments : Arguments.t;
  savePath : string;
  recursive_level_max : Z;
  blacklists : gmap Z (list string);
  excludeStatusCodes : list Z;
  excludeTexts : list string;
  excludeRegexps : list string;
  recursive : bool;
  suppressEmpty : bool;
  excludeSubdirs : list string;
  dictionary : nat;               (* [len(self.dictionary)] *)
  batch : bool;
  batchDirectoryPath : string
}.

(** [self], together with the file system and the calls made on
    [self.output] and [self.fuzzer]. *)
Record Controller := {
  settings :> Settings;
  exit : bool;
  doneDirs : list string;
  directories : list string;      (* [Queue()]: put at the back, get at the front *)
  errorLog : File.t;
  reportManager : option ReportManager.t;
  currentUrl : string;
  requester : option Requester.t;
  basePath : string;
  index : Z;
  currentDirectory : string;
  fuzzer : list FuzzerCall;
  output : list OutputCall;
  fs : FS
}.

Definition with_exit (v : bool) (st : Controller) : Controller :=
  Build_Controller st v (doneDirs st) (directories st) (errorLog st) (reportManager st)
    (currentUrl st) (requester st) (basePath st) (index st) (currentDirectory st)
    (fuzzer st) (output st) (fs st).
Definition with_doneDirs (v : list string) (st : Controller) : Controller :=
  Build_Controller st (exit st) v (directories st) (errorLog st) (reportManager st)
    (currentUrl st) (requester st) (basePath st) (index st) (currentDirectory st)
    (fuzzer st) (output st) (fs st).
Definition with_directories (v : list string) (st : Controller) : Controller :=
  Build_Controller st (exit st) (doneDirs st) v (errorLog st) (reportManager st)
    (currentUrl st) (requester st) (basePath st) (index st) (currentDirectory st)
    (fuzzer st) (output st) (fs st).
Definition with_errorLog (v : File.t) (st : Controller) : Controller :=
  Build_Controller st (exit st) (doneDirs st) (directories st) v (reportManager st)
    (currentUrl st) (requester st) (basePath st) (index st) (currentDirectory st)
    (fuzzer st) (output st) (fs st).
Definition with_reportManager (v : option ReportManager.t) (st : Controller) : Controller :=
  Build_Controller st (exit st) (doneDirs st) (directories st) (errorLog st) v
    (currentUrl st) (requester st) (basePath st) (index st) (currentDirectory st)
    (fuzzer st) (output st) (fs st).
Definition with_currentUrl (v : string) (st : Controller) : Controller :=
  Build_Controller st (exit st) (doneDirs st) (directories st) (errorLog st) (reportManager st)
    v (requester st) (basePath st) (index st) (currentDirectory st)
    (fuzzer st) (output st) (fs st).
Definition with_requester (v : option Requester.t) (st : Controller) : Controller :=
  Build_Controller st (exit st) (doneDirs st) (directories st) (errorLog st) (reportManager st)
    (currentUrl st) v (basePath st) (index st) (currentDirectory st)
    (fuzzer st) (output st) (fs st).
Definition with_basePath (v : string) (st : Controller) : Controller :=
  Build_Controller st (exit st) (doneDirs st) (directories st) (errorLog st) (reportManager st)
    (currentUrl st) (requester st) v (index st) (currentDirectory st)
    (fuzzer st) (output st) (fs st).
Definition with_index (v : Z) (st : Controller) : Controller :=
  Build_Controller st (exit st) (doneDirs st) (directories st) (errorLog st) (reportManager st)
    (currentUrl st) (requester st) (basePath st) v (currentDirectory st)
    (fuzzer st) (output st) (fs st).
Definition with_currentDirectory (v : string) (st : Controller) : Controller :=
  Build_Controller st (exit st) (doneDirs st) (directories st) (errorLog st) (reportManager st)
    (currentUrl st) (requester st) (basePath st) (index st) v
    (fuzzer st) (output st) (fs st).
Definition with_fuzzer (v : list FuzzerCall) (st : Controller) : Controller :=
  Build_Controller st (exit st) (doneDirs st) (directories st) (errorLog st) (reportManager st)
    (currentUrl st) (requester st) (basePath st) (index st) (currentDirectory st)
    v (output st) (fs st).
Definition with_output (v : list OutputCall) (st : Controller) : Controller :=
  Build_Controller st (exit st) (doneDirs st) (directories st) (errorLog st) (reportManager st)
    (currentUrl st) (requester st) (basePath st) (index st) (currentDirectory st)
    (fuzzer st) v (fs st).
Definition with_fs (v : FS) (st : Controller) : Controller :=
  Build_Controller st (exit st) (doneDirs st) (directories st) (errorLog st) (reportManager st)
    (currentUrl st) (requester st) (basePath st) (index st) (currentDirectory st)
    (fuzzer st) (output st) v.

(** *** Statements that read or write [self] and may raise *)

Definition M (A : Type) : Type := Controller -> result A * Controller.

Definition ret {A} (a : A) : M A := fun st => (Return a, st).

Definition bind {A B} (m : M A) (k : A -> M B) : M B :=
  fun st =>
    match m st with
    | (Return a, st') => k a st'
    | (Raise e, st') => (Raise e, st')
    end.

Definition raise {A} (e : exn) : M A := fun st => (Raise e, st).

Definition get : M Controller := fun st => (Return st, st).

Definition modify (f : Controller -> Controller) : M unit :=
  fun st => (Return tt, f st).

Definition lift {A} (f : Controller -> A * Controller) : M A :=
  fun st => let '(a, st') := f st in (Return a, st').

(** [try: body / except <the exceptions handler answers>: handler] *)
Definition try_except {A} (body : M A) (handler : exn -> option (M A)) : M A :=
  fun st =>
    match body st with
    | (Raise e, st') =>
        match handler e with
        | Some h => h st'
        | None => (Raise e, st')
        end
    | r => r
    end.

(** [try: body / finally: cleanup]: the clean-up runs on every exit from
    [body]; what [body] returned or raised stands unless the clean-up
    raises itself. *)
Definition try_finally {A} (body : M A) (cleanup : M unit) : M A :=
  fun st =>
    let '(r, st1) := body st in
    match cleanup st1 with
    | (Return _, st2) => (r, st2)
    | (Raise e, st2) => (Raise e, st2)
    end.

Notation "x ← y ; z" := (bind y (fun x => z))
  (at level 20, y at level 100, z at level 200, only parsing) : ctl_scope.
Notation "x ;; z" := (bind x (fun _ => z))
  (at level 100, z at level 200, only parsing, right associativity) : ctl_scope.
Local Open Scope ctl_scope.

Definition output_call (c : OutputCall) : M unit :=
  modify (fun st => with_output (output st ++ [c]) st).

Definition fuzzer_call (c : FuzzerCall) : M unit :=
  modify (fun st => with_fuzzer (fuzzer st ++ [c]) st).

(** A method call on [self.reportManager]. *)
Definition reportManager_call (c : ReportManager.call) : M unit :=
  fun st =>
    match reportManager st with
    | Some m => (Return tt, with_reportManager (Some (ReportManager.record c m)) st)
    | None => (Raise AttributeError, st)
    end.

Definition reportManager_add_output (r : Report) : M unit :=
  fun st =>
    match reportManager st with
    | Some m => (Return tt, with_reportManager (Some (ReportManager.add_output r m)) st)
    | None => (Raise AttributeError, st)
    end.

(** *** The frontier: [add_directory] and [add_redirect_directory] *)

Definition add_directory (path : string) (st : Controller) : bool * Controller :=
  if negb (recursive st) then (false, st)
  else if Py.endswith path "/" then
    if bool_decide (path ∈ (fun directory => directory +:+ "/") <$> excludeSubdirs st)
    then (false, st)
    else
      let dir := currentDirectory st +:+ path in
      if bool_decide (dir ∈ doneDirs st) then (false, st)
      else if Z.of_nat (Py.count dir "/") >? recursive_level_max st then (false, st)
      else (true, with_doneDirs (doneDirs st ++ [dir])
                    (with_directories (directories st ++ [dir]) st))
  else (false, st).

Definition add_redirect_directory (path : Path.t) (st : Controller) : bool * Controller :=
  if negb (recursive st) then (false, st)
  else
    let baseUrl := Py.rstrip (currentUrl st) "/" +:+ "/" +:+ currentDirectory st in
    let absoluteUrl :=
      urllib_parse.urljoin baseUrl (default "" (Response.redirect (Path.response path))) in
    if Py.startswith absoluteUrl baseUrl
       && negb (String.eqb absoluteUrl baseUrl)
       && Py.endswith absoluteUrl "/"
    then
      let dir := Py.drop (Py.len baseUrl) absoluteUrl in
      if bool_decide (dir ∈ doneDirs st) then (false, st)
      else if Z.of_nat (Py.count dir "/") >? recursive_level_max st then (false, st)
      else (true, with_doneDirs (doneDirs st ++ [dir])
                    (with_directories (directories st ++ [dir]) st))
    else (false, st).

(** *** Callbacks handed to the fuzzer *)

(** [if path.response.redirect:] *)
Definition has_redirect (r : Response.t) : bool :=
  match Response.redirect r with
  | Some target => Py.truthy target
  | None => false
  end.

Definition match_callback (path : Path.t) : M unit :=
  modify (fun st => with_index (index st + 1) st) ;;
  fun st : Controller =>
    match Path.status path with
    | Some status =>
        if negb (bool_decide (status ∈ excludeStatusCodes st))
           && match blacklists st !! status with
              | None => true
              | Some blacklist => negb (bool_decide (Path.path path ∈ blacklist))
              end
           && negb (suppressEmpty st
                    && (Py.len (Response.body (Path.response path)) =? 0)%nat)
        then
          if existsb
               (fun excludeText =>
                  Py.contains excludeText (decode (Response.body (Path.response path))))
               (excludeTexts st)
          then (Return tt, st)
          else if existsb
                    (fun excludeRegexp =>
                       re_search excludeRegexp (decode (Response.body (Path.response path))))
                    (excludeRegexps st)
          then (Return tt, st)
          else
            (output_call (out_status_report (Path.path path) (Path.response path)) ;;
             (if has_redirect (Path.response path)
              then lift (add_redirect_directory path)
              else lift (add_directory (Path.path path))) ;;
             st' ← get ;
             reportManager_call
               (ReportManager.add_path (currentDirectory st' +:+ Path.path path)
                  status (Path.response path)) ;;
             reportManager_call ReportManager.save) st
        else (Return tt, st)
    | None => (Return tt, st)
    end.

Definition not_found_callback (path : string) : M unit :=
  modify (fun st => with_index (index st + 1) st) ;;
  st ← get ;
  output_call (out_lastPath path (index st) (dictionary st)).

Definition error_callback (path errorMsg : string) : M unit :=
  output_call out_add_connection_error.

(** [now] is what [time.strftime('[%y-%m-%d %H:%M:%S] - ')] returns when the
    callback runs.  Writing to a closed file raises [ValueError]. *)
Definition append_error_log (path errorMsg now : string) : M unit :=
  fun st =>
    let line := now in
    let line := line +:+ currentUrl st +:+ " - " +:+ path +:+ " - " +:+ errorMsg in
    if File.closed (errorLog st) then (Raise ValueError, st)
    else (Return tt, with_errorLog (File.write (linesep +:+ line) (errorLog st)) st).

(** *** The operator prompt: [handle_interrupt] *)

(** What [input()] yields: a line typed by the operator, or a second
    Ctrl+C.  When the keys run out the input stream is at its end. *)
Inductive Key := Line (option : string) | CtrlC.

Definition queue_empty (st : Controller) : bool :=
  match directories st with [] => true | _ => false end.

Definition several_targets (st : Controller) : bool :=
  (1 <? length (Arguments.urlList (arguments st)))%nat.

Definition prompt_message (st : Controller) : string :=
  let msg := "[e]xit / [c]ontinue" in
  let msg := if negb (queue_empty st) then msg +:+ " / [n]ext" else msg in
  let msg := if several_targets st then msg +:+ " / [s]kip target" else msg in
  msg +:+ ": ".

(** The [while True] loop of [handle_interrupt]: one turn per key. *)
Fixpoint prompt_loop (keys : list Key) : M unit :=
  st ← get ;
  output_call (out_in_line (prompt_message st)) ;;
  match keys with
  | [] => raise EOFError
  | CtrlC :: _ => raise KeyboardInterrupt
  | Line option :: keys' =>
      if String.eqb (Py.lower option) "e" then
        modify (with_exit true) ;;
        fuzzer_call fuzzer_stop ;;
        raise KeyboardInterrupt
      else if String.eqb (Py.lower option) "c" then
        fuzzer_call fuzzer_play
      else if negb (queue_empty st) && String.eqb (Py.lower option) "n" then
        fuzzer_call fuzzer_stop
      else if several_targets st && String.eqb (Py.lower option) "s" then
        raise SkipTargetInterrupt
      else prompt_loop keys'
  end.

Definition handle_interrupt (keys : list Key) : M unit :=
  output_call (out_warning "CTRL+C detected: Pausing threads, please wait...") ;;
  fuzzer_call fuzzer_pause ;;
  try_except (prompt_loop keys)
    (fun e =>
       match e with
       | KeyboardInterrupt => Some (modify (with_exit true) ;; raise KeyboardInterrupt)
       | _ => None
       end).

(** *** One fuzzer run: [process_paths] *)

(** What happens while the controller polls [self.fuzzer.wait(0.3)]: the
    worker threads invoke callbacks, the operator presses Ctrl+C, or the
    fuzzer fails with a [RequestException].  The events of a run are given
    in the order in which they reach the controller. *)
Inductive FuzzEvent :=
| Match (path : Path.t)
| NotFound (path : string)
| Error (path errorMsg now : string)
| Interrupt (keys : list Key)
| TransportFailure (message : string).

(** A callback runs on a worker thread: an exception it raises ends that
    thread's call and does not reach the controller. *)
Definition in_worker (callback : M unit) : M unit :=
  try_except callback (fun _ => Some (ret tt)).

(** [self.fuzzer.wait] answers true once the fuzzer has been stopped. *)
Definition stopped (st : Controller) : bool :=
  match last (fuzzer st) with
  | Some fuzzer_stop => true
  | _ => false
  end.

Fixpoint process_paths (events : list FuzzEvent) : M unit :=
  match events with
  | [] => ret tt
  | Match path :: events' =>
      in_worker (match_callback path) ;; process_paths events'
  | NotFound path :: events' =>
      in_worker (not_found_callback path) ;; process_paths events'
  | Error path errorMsg now :: events' =>
      in_worker (error_callback path errorMsg) ;;
      in_worker (append_error_log path errorMsg now) ;;
      process_paths events'
  | Interrupt keys :: events' =>
      handle_interrupt keys ;;
      st ← get ;
      if stopped st then ret tt else process_paths events'
  | TransportFailure message :: _ => raise (RequestException message)
  end.

(** *** The loop over the frontier: [wait] *)

(** One fuzzer run; [started] is [time.strftime('%H:%M:%S')] at its start. *)
Record DirRun := { started : string; events : list FuzzEvent }.

(** A run in which the dictionary yields nothing. *)
Definition quiet : DirRun := {| started := ""; events := [] |}.

(** The body of [while not self.directories.empty()]. *)
Definition scan_next (run : DirRun) : M unit :=
  fun st =>
    match directories st with
    | [] => (Return tt, st)
    | dir :: rest =>
        (modify (with_index 0) ;;
         modify (fun st => with_currentDirectory dir (with_directories rest st)) ;;
         output_call (out_warning ("[" +:+ started run +:+ "] Starting: " +:+ dir)) ;;
         modify (fun st =>
                   with_requester
                     ((fun r => Requester.set_basePath r (basePath st +:+ currentDirectory st))
                        <$> requester st) st) ;;
         st' ← get ;
         output_call (out_basePath (basePath st' +:+ currentDirectory st')) ;;
         fuzzer_call fuzzer_start ;;
         process_paths (events run)) st
    end.

(** Runs beyond the scripted ones find nothing, so each of them only takes
    one entry off the queue. *)
Fixpoint drain (n : nat) : M unit :=
  match n with
  | O => ret tt
  | S n' => scan_next quiet ;; drain n'
  end.

Fixpoint wait (runs : list DirRun) : M unit :=
  fun st =>
    if queue_empty st then (Return tt, st)
    else
      match runs with
      | [] => drain (length (directories st)) st
      | run :: runs' => (scan_next run ;; wait runs') st
      end.

(** *** [setup_reports] *)

(** [str(i)] *)
Definition str (i : nat) : string := NilZero.string_of_uint (Nat.to_uint i).

(** [while FileUtils.exists(outputFile + "_" + str(i)): i += 1], which
    stops within as many turns as the file system has entries. *)
Fixpoint free_index (fs0 : FS) (outputFile : string) (i turns : nat) : nat :=
  match turns with
  | O => i
  | S turns' =>
      if exists_ fs0 (outputFile +:+ "_" +:+ str i)
      then free_index fs0 outputFile (S i) turns'
      else i
  end.

Definition sys_exit {A} (code : Z) : M A := raise (SystemExit code).

(** [now] is [time.strftime('%y-%m-%d_%H-%M-%S')]. *)
Definition setup_reports (requester : Requester.t) (now : string) : M unit :=
  st ← get ;
  (if Arguments.autoSave (arguments st) then
     let basePath :=
       if String.eqb (Requester.basePath requester) "" then "/"
       else Requester.basePath requester in
     let basePath := Py.strip_ends (Py.replace basePath sep ".") in
     let '(fileName, directoryPath) :=
       if batch st then (Requester.host requester, batchDirectoryPath st)
       else ((if negb (String.eqb basePath "") then basePath +:+ "_" else "") +:+ now,
             build_path [savePath st; "reports"; Requester.host requester]) in
     let outputFile := build_path [directoryPath; fileName] in
     let outputFile :=
       if exists_ (fs st) outputFile
       then outputFile +:+ "_"
            +:+ str (free_index (fs st) outputFile 2 (length (listing (fs st))))
       else outputFile in
     (if negb (exists_ (fs st) directoryPath) then
        modify (fun st => with_fs (create_directory (fs st) directoryPath) st) ;;
        st ← get ;
        if negb (exists_ (fs st) directoryPath) then
          output_call (out_error ("Couldn't create reports folder " +:+ directoryPath)) ;;
          sys_exit 1
        else ret tt
      else ret tt) ;;
     st ← get ;
     if can_write (fs st) directoryPath then
       let report : option Report := None in
       let report :=
         if String.eqb (Arguments.autoSaveFormat (arguments st)) "simple"
         then Some (SimpleReport (Requester.host requester) (Requester.port requester)
                      (Requester.protocol requester) (Requester.basePath requester)
                      outputFile)
         else report in
       let report :=
         if String.eqb (Arguments.autoSaveFormat (arguments st)) "json"
         then JSONReport (Requester.host requester) (Requester.port requester)
                (Requester.protocol requester) (Requester.basePath requester) outputFile
         else PlainTextReport (Requester.host requester) (Requester.port requester)
                (Requester.protocol requester) (Requester.basePath requester) outputFile in
       reportManager_add_output report
     else
       output_call (out_error ("Can't write reports to " +:+ directoryPath)) ;;
       sys_exit 1
   else ret tt) ;;
  (match Arguments.simpleOutputFile (arguments st) with
   | Some file =>
       reportManager_add_output
         (SimpleReport (Requester.host requester) (Requester.port requester)
            (Requester.protocol requester) (Requester.basePath requester) file)
   | None => ret tt
   end) ;;
  (match Arguments.plainTextOutputFile (arguments st) with
   | Some file =>
       reportManager_add_output
         (PlainTextReport (Requester.host requester) (Requester.port requester)
            (Requester.protocol requester) (Requester.basePath requester) file)
   | None => ret tt
   end) ;;
  (match Arguments.jsonOutputFile (arguments st) with
   | Some file =>
       reportManager_add_output
         (JSONReport (Requester.host requester) (Requester.port requester)
            (Requester.protocol requester) (Requester.basePath requester) file)
   | None => ret tt
   end).

(** *** The loop over the targets: [__init__] from [try:] on *)

(** What [Requester(url, ...)] followed by [self.requester.request("/")]
    does: it connects, it raises [RequestException], or the operator
    interrupts it. *)
Inductive Probe :=
| Connected (requester : Requester.t)
| Unreachable (message : string)
| Aborted.

(** What the outside world does while one target is scanned; [now] is
    [time.strftime('%y-%m-%d_%H-%M-%S')] when the reports are set up. *)
Record Target := { probe : Probe; now : string; runs : list DirRun }.

(** [if self.arguments.scanSubdirs is not None: ... else: ...] *)
Definition seed_directories : M unit :=
  st ← get ;
  match Arguments.scanSubdirs (arguments st) with
  | Some scanSubdirs =>
      fold_left
        (fun (acc : M unit) subdir =>
           acc ;; modify (fun st => with_directories (directories st ++ [subdir]) st))
        scanSubdirs (ret tt)
  | None => modify (fun st => with_directories (directories st ++ [""]) st)
  end.

(** The statements before [try: self.wait()].  Random user agents and extra
  headers are set on the requester and leave the controller as it is;
  [gc.collect()] has no effect on it either. *)
Definition prepare_target (target : Target) (url : string) : M Requester.t :=
  modify (with_reportManager (Some ReportManager.new)) ;;
  modify (with_currentUrl url) ;;
  output_call (out_target url) ;;
  requester ←
    try_except
      (match probe target with
       | Connected requester =>
           modify (with_requester (Some requester)) ;; ret requester
       | Unreachable message => raise (RequestException message)
       | Aborted => raise KeyboardInterrupt
       end)
      (fun e =>
         match e with
         | RequestException message =>
             Some (output_call (out_error message) ;; raise SkipTargetInterrupt)
         | _ => None
         end) ;
  modify (with_basePath (Requester.basePath requester)) ;;
  seed_directories ;;
  setup_reports requester (now target) ;;
  modify (with_fuzzer []) ;;
  ret requester.

(** The body of the inner [try]. *)
Definition scan_target (target : Target) (url : string) : M unit :=
  prepare_target target url ;;
  try_except (wait (runs target))
    (fun e =>
       match e with
       | RequestException message =>
           Some (output_call
                   (out_error ("Fatal error during site scanning: " +:+ message)) ;;
                 raise SkipTargetInterrupt)
       | _ => None
       end).

(** [try: ... / except SkipTargetInterrupt: continue / finally:
    self.reportManager.save()] *)
Definition target_iteration (target : Target) (url : string) : M unit :=
  try_finally
    (try_except (scan_target target url)
       (fun e =>
          match e with
          | SkipTargetInterrupt => Some (ret tt)
          | _ => None
          end))
    (reportManager_call ReportManager.save).

(** [for url in self.arguments.urlList] *)
Fixpoint for_each_target (world : string -> Target) (urlList : list string) : M unit :=
  match urlList with
  | [] => ret tt
  | url :: urlList' =>
      target_iteration (world url) url ;; for_each_target world urlList'
  end.

Definition close_errorLog : M unit :=
  modify (fun st =>
            if negb (File.closed (errorLog st))
            then with_errorLog (File.close (errorLog st)) st
            else st).

(** The outer [try] with its [except KeyboardInterrupt] and [finally],
    then the closing message. *)
Definition run (world : string -> Target) : M unit :=
  try_finally
    (try_except
       (st ← get ; for_each_target world (Arguments.urlList (arguments st)))
       (fun e =>
          match e with
          | KeyboardInterrupt =>
              Some (output_call (out_error (String "010" "Canceled by the user")) ;;
                    sys_exit 0)
          | _ => None
          end))
    (close_errorLog ;; reportManager_call ReportManager.close) ;;
  output_call (out_warning (String "010" "Task Completed")).

(** [self] when the loop over the targets starts.  The banner, the check of
    the HTTP method, the home save directory and the batch directory are
    set-up steps that end the process on failure; [get_blacklists] reads
    the black lists from files and [setup_error_logs] opens the error log. *)
Definition new_controller (script_path : string) (arguments : Arguments.t)
    (blacklists : gmap Z (list string)) (dictionary : nat)
    (batchSession : string) (fs0 : FS) : Controller :=
  {| settings :=
       {| arguments := arguments;
          savePath := script_path;
          recursive_level_max := Arguments.recursive_level_max arguments;
          blacklists := blacklists;
          excludeStatusCodes := Arguments.excludeStatusCodes arguments;
          excludeTexts := Arguments.excludeTexts arguments;
          excludeRegexps := Arguments.excludeRegexps arguments;
          recursive := Arguments.recursive arguments;
          suppressEmpty := Arguments.suppressEmpty arguments;
          excludeSubdirs := default [] (Arguments.excludeSubdirs arguments);
          dictionary := dictionary;
          batch := Arguments.autoSave arguments
                   && (1 <? length (Arguments.urlList arguments))%nat;
          batchDirectoryPath := build_path [script_path; "reports"; batchSession] |};
     exit := false;
     doneDirs := [];
     directories := [];
     errorLog := File.open;
     reportManager := None;
     currentUrl := "";
     requester := None;
     basePath := "";
     index := 0;
     currentDirectory := "";
     fuzzer := [];
     output := [];
     fs := fs0 |}.

End Controller.

(** ** The black lists: [get_blacklists] *)

(** [FileUtils.can_read] and [FileUtils.get_lines]; a file that can be read
    is taken to yield its lines. *)
Class FileReader `{!FileUtils} := {
can_read : FS -> string -> bool;
get_lines : FS -> string -> list string
}.

Section Blacklists.

Context `{!FileUtils, !FileReader}.

(** [c.isspace()] for a character below 256. *)
Definition isspace (c : ascii) : bool :=
  let n := nat_of_ascii c in
  ((9 <=? n) && (n <=? 13) || (28 <=? n) && (n <=? 32) || (n =? 133) || (n =? 160))%nat.

(** [s.lstrip()] *)
Fixpoint lstrip (s : string) : string :=
  match s with
  | String c s' => if isspace c then lstrip s' else s
  | EmptyString => s
  end.

(** ['{}'.format(status)] for a status code, which is not negative. *)
Definition format_status (status : Z) : string :=
  str (Z.to_nat status).

(** [blacklists[status].append(line)] is an update of the entry that
    [blacklists[status] = []] has created just before. *)
Definition get_blacklists (script_path : string) (fs0 : FS) : gmap Z (list string) :=
  fold_left
    (fun (blacklists : gmap Z (list string)) (status : Z) =>
       let blacklistFileName := build_path [script_path; "db"] in
       let blacklistFileName :=
         build_path [blacklistFileName; format_status status +:+ "_blacklist.txt"] in
       if negb (can_read fs0 blacklistFileName) then blacklists
       else
         let blacklists := <[status := []]> blacklists in
         fold_left
           (fun (blacklists : gmap Z (list string)) (line : string) =>
              if Py.startswith (lstrip line) "#" then blacklists
              else alter (fun blacklist => blacklist ++ [line]) status blacklists)
           (get_lines fs0 blacklistFileName) blacklists)
    [400; 403; 500] ∅.

End Blacklists.

(** ** The batch directory: [setup_batch_reports] *)

(** [FileUtils.write_lines]. *)
Class FileWriter `{!FileUtils} := {
write_lines : FS -> string -> list string -> FS
}.

Section Batch.

Context `{!FileUtils, !FileWriter}.

Notation "x ← y ; z" := (bind y (fun x => z))
  (at level 20, y at level 100, z at level 200, only parsing) : ctl_scope.
Notation "x ;; z" := (bind x (fun _ => z))
  (at level 100, z at level 200, only parsing, right associativity) : ctl_scope.
Local Open Scope ctl_scope.

Definition with_batch (v : bool) (st : Controller) : Controller :=
  Build_Controller
    {| arguments := arguments st; savePath := savePath st;
       recursive_level_max := recursive_level_max st; blacklists := blacklists st;
       excludeStatusCodes := excludeStatusCodes st; excludeTexts := excludeTexts st;
       excludeRegexps := excludeRegexps st; recursive := recursive st;
       suppressEmpty := suppressEmpty st; excludeSubdirs := excludeSubdirs st;
       dictionary := dictionary st; batch := v;
       batchDirectoryPath := batchDirectoryPath st |}
    (exit st) (doneDirs st) (directories st) (errorLog st) (reportManager st)
    (currentUrl st) (requester st) (basePath st) (index st) (currentDirectory st)
    (fuzzer st) (output st) (fs st).

Definition with_batchDirectoryPath (v : string) (st : Controller) : Controller :=
  Build_Controller
    {| arguments := arguments st; savePath := savePath st;
       recursive_level_max := recursive_level_max st; blacklists := blacklists st;
       excludeStatusCodes := excludeStatusCodes st; excludeTexts := excludeTexts st;
       excludeRegexps := excludeRegexps st; recursive := recursive st;
       suppressEmpty := suppressEmpty st; excludeSubdirs := excludeSubdirs st;
       dictionary := dictionary st; batch := batch st;
       batchDirectoryPath := v |}
    (exit st) (doneDirs st) (directories st) (errorLog st) (reportManager st)
    (currentUrl st) (requester st) (basePath st) (index st) (currentDirectory st)
    (fuzzer st) (output st) (fs st).

(** [now] is [time.strftime('%y-%m-%d_%H-%M-%S')]. *)
Definition setup_batch_reports (now : string) : M unit :=
  modify (with_batch true) ;;
  let batchSession := "BATCH-" +:+ now in
  modify (fun st =>
            with_batchDirectoryPath (build_path [savePath st; "reports"; batchSession]) st) ;;
  st ← get ;
  (if negb (exists_ (fs st) (batchDirectoryPath st)) then
     modify (fun st => with_fs (create_directory (fs st) (batchDirectoryPath st)) st) ;;
     st ← get ;
     if negb (exists_ (fs st) (batchDirectoryPath st)) then
       output_call
         (out_error ("Couldn't create batch folder " +:+ batchDirectoryPath st)) ;;
       sys_exit 1
     else ret tt
   else ret tt) ;;
  st ← get ;
  if can_write (fs st) (batchDirectoryPath st) then
    modify (fun st => with_fs (create_directory (fs st) (batchDirectoryPath st)) st) ;;
    st ← get ;
    let targetsFile := build_path [batchDirectoryPath st; "TARGETS.txt"] in
    modify (fun st =>
              with_fs (write_lines (fs st) targetsFile (Arguments.urlList (arguments st))) st)
  else
    output_call
      (out_error ("Couldn't create batch folder " +:+ batchDirectoryPath st +:+ ".")) ;;
    sys_exit 1.

End Batch.

(** ** A concrete environment for closed examples

    Bodies are ASCII text, a pattern is searched for literally, and the file
    system is the list of its paths, every one of them writable. *)

Definition literal_scan : BodyScan :=
{| decode := fun body => body;
   re_search := fun pattern text => Py.contains pattern text |}.

Definition posix : OS := {| linesep := String "010" ""; sep := "/"%char |}.

Definition listed_exists (fs0 : list string) (p : string) : bool :=
existsb (String.eqb p) fs0.

Lemma listed_exists_In (fs0 : list string) (p : string) :
  listed_exists fs0 p = true -> In p fs0.
Proof.
  unfold listed_exists. rewrite existsb_exists.
  intros [q [Hq Heq]]. apply String.eqb_eq in Heq. now subst.
Qed.

Definition listed_files : FileUtils :=
{| FS := list string;
   exists_ := listed_exists;
   create_directory := fun fs0 p => p :: fs0;
   can_write := fun _ _ => true;
   build_path := Py.join "/";
   listing := fun fs0 => fs0;
   exists_listing := listed_exists_In |}.

Definition ok (path : string) (code : Z) : Path.t :=
{| Path.path := path; Path.status := Some code;
   Path.response := {| Response.body := "ok"; Response.redirect := None |} |}.

Definition moved (path target : string) : Path.t :=
{| Path.path := path; Path.status := Some 301;
   Path.response := {| Response.body := "moved"; Response.redirect := Some target |} |}.

(** Arguments of a run that saves no report by itself and filters nothing. *)
Definition arguments_for (urlList : list string) (recursive : bool)
    (excludeSubdirs scanSubdirs : option (list string)) : Arguments.t :=
{| Arguments.recursive_level_max := 3;
   Arguments.recursive := recursive;
   Arguments.excludeSubdirs := excludeSubdirs;
   Arguments.excludeStatusCodes := [];
   Arguments.excludeTexts := [];
   Arguments.excludeRegexps := [];
   Arguments.suppressEmpty := false;
   Arguments.scanSubdirs := scanSubdirs;
   Arguments.urlList := urlList;
   Arguments.autoSave := false;
   Arguments.autoSaveFormat := "plain";
   Arguments.simpleOutputFile := None;
   Arguments.plainTextOutputFile := None;
   Arguments.jsonOutputFile := None |}.

(** The controller of such a run before its first target, over an empty
    file system, with no black list and a dictionary of two words. *)
Definition controller_for (arguments : Arguments.t) : @Controller listed_files :=
@new_controller listed_files "/opt/webscan" arguments ∅ 2%nat "BATCH" [].

(** The controller while it scans [currentDirectory] of the target [url]. *)
Definition scanning (url currentDirectory : string)
    (st : @Controller listed_files) : @Controller listed_files :=
with_currentDirectory currentDirectory (with_currentUrl url st).

(** The requester of a target on port 80 whose base path is the root. *)
Definition requester_of (host : string) : Requester.t :=
{| Requester.host := host; Requester.port := 80;
   Requester.protocol := "http"; Requester.basePath := "/" |}.

(** A target on port 80 that answers the first request. *)
Definition reachable (host : string) (runs : list DirRun) : Target :=
{| probe := Connected (requester_of host);
   now := "26-11-03_12-00-00";
   runs := runs |}.

(** The controller of a run seeded with the subdirectory [a/], while it scans
    that seed on the target [http://h/]. *)
Definition in_seed_a : @Controller listed_files :=
scanning "http://h/" "a/"
  (controller_for (arguments_for ["http://h/"] true None (Some ["a/"]))).


(** The controller of a recursive run that excludes the subdirectory
    [admin], while it scans the root of [http://h/]. *)
Definition excluding_admin : @Controller listed_files :=
scanning "http://h/" ""
  (controller_for (arguments_for ["http://h/"] true (Some ["admin"]) None)).

(** Arguments of a run that saves its report by itself in the given format. *)
Definition autosaving (autoSaveFormat : string) (urlList : list string) : Arguments.t :=
{| Arguments.recursive_level_max := 3;
   Arguments.recursive := true;
   Arguments.excludeSubdirs := None;
   Arguments.excludeStatusCodes := [];
   Arguments.excludeTexts := [];
   Arguments.excludeRegexps := [];
   Arguments.suppressEmpty := false;
   Arguments.scanSubdirs := None;
   Arguments.urlList := urlList;
   Arguments.autoSave := true;
   Arguments.autoSaveFormat := autoSaveFormat;
   Arguments.simpleOutputFile := None;
   Arguments.plainTextOutputFile := None;
   Arguments.jsonOutputFile := None |}.

(** The controller of a run that saves a report in the format [simple], when
    the reports of the target [http://h/] are about to be set up. *)
Definition saving_simple : @Controller listed_files :=
with_reportManager (Some ReportManager.new)
  (scanning "http://h/" "" (controller_for (autosaving "simple" ["http://h/"]))).

(** The controller of a run that excludes the given statuses and texts and
    has a black list for status 403 holding the path [admin], while it scans
    the root of [http://h/]. *)
Definition filtering (excludeStatusCodes : list Z) (excludeTexts : list string) :
  @Controller listed_files :=
with_reportManager (Some ReportManager.new)
  (scanning "http://h/" ""
     (@new_controller listed_files "/opt/webscan"
        {| Arguments.recursive_level_max := 3;
           Arguments.recursive := true;
           Arguments.excludeSubdirs := None;
           Arguments.excludeStatusCodes := excludeStatusCodes;
           Arguments.excludeTexts := excludeTexts;
           Arguments.excludeRegexps := [];
           Arguments.suppressEmpty := false;
           Arguments.scanSubdirs := None;
           Arguments.urlList := ["http://h/"];
           Arguments.autoSave := false;
           Arguments.autoSaveFormat := "plain";
           Arguments.simpleOutputFile := None;
           Arguments.plainTextOutputFile := None;
           Arguments.jsonOutputFile := None |}
        {[ 403 := ["admin"] ]} 2%nat "BATCH" [])).

(** One fuzzer run that reports the single result [path]. *)
Definition finding (path : Path.t) : DirRun :=
{| started := "12:00:00"; events := [Match path] |}.

(** Two targets, each of which has a directory [admin/] under its root. *)
Definition two_targets : @Controller listed_files :=
controller_for (arguments_for ["http://a/"; "http://b/"] true None None).

Definition both_have_admin (url : string) : Target :=
reachable (if String.eqb url "http://a/" then "a" else "b") [finding (ok "admin/" 200)].

(** A run seeded with [a/] (a name that is also excluded), [a/b/] and an
    entry deeper than the limit, on a target where [a/] holds [b/]. *)
Definition seeded_run : @Controller listed_files :=
controller_for
  (arguments_for ["http://h/"] true (Some ["a"]) (Some ["a/"; "a/b/"; "1/2/3/4/"])).

Definition a_holds_b (url : string) : Target :=
reachable "h" [finding (ok "b/" 200)].

(** Four targets: one that cannot be reached, one whose scan fails with a
    transport error, one that the operator skips, and one that is scanned
    to its end. *)
Definition four_targets : @Controller listed_files :=
controller_for
  (arguments_for ["http://down/"; "http://flaky/"; "http://skipped/"; "http://fine/"]
     true None None).

Definition mixed_fortunes (url : string) : Target :=
if String.eqb url "http://down/" then
  {| probe := Unreachable "connection refused"; now := "26-11-03_12-00-00"; runs := [] |}
else if String.eqb url "http://flaky/" then
  reachable "flaky"
    [{| started := "12:00:01";
        events := [Match (ok "admin" 200); TransportFailure "connection reset"] |}]
else if String.eqb url "http://skipped/" then
  reachable "skipped"
    [{| started := "12:00:02";
        events := [Match (ok "admin" 200); Interrupt [Line "x"; Line "S"];
                   Match (ok "backup" 200)] |}]
else
  reachable "fine" [finding (ok "index" 200)].

(** A file system in which nothing can be created or written. *)
Definition read_only_files : FileUtils :=
{| FS := list string;
   exists_ := listed_exists;
   create_directory := fun fs0 _ => fs0;
   can_write := fun _ _ => false;
   build_path := Py.join "/";
   listing := fun fs0 => fs0;
   exists_listing := listed_exists_In |}.

(** The controller of a run that saves its report by itself on such a file
    system, when the reports of the target [http://h/] are about to be set
    up. *)
Definition saving_on_read_only : @Controller read_only_files :=
with_reportManager (Some ReportManager.new)
  (with_currentUrl "http://h/"
     (@new_controller read_only_files "/opt/webscan" (autosaving "plain" ["http://h/"])
        ∅ 2%nat "BATCH" [])).

(** An installation whose only black list is the one for the status 403: a
    comment, the path [admin], and an indented comment. *)
Definition blacklist_on_disk : @FileReader listed_files :=
@Build_FileReader listed_files listed_exists
  (fun _ fileName =>
     if String.eqb fileName "/opt/webscan/db/403_blacklist.txt"
     then ["# answered with 403 by every server"; "admin"; String "009" "#.htaccess"]
     else []).

(** The controller of a run on that installation, while it scans the root of
    [http://h/]. *)
Definition with_blacklist_files : @Controller listed_files :=
with_reportManager (Some ReportManager.new)
  (scanning "http://h/" ""
     (@new_controller listed_files "/opt/webscan"
        (arguments_for ["http://h/"] true None None)
        (@get_blacklists listed_files blacklist_on_disk "/opt/webscan"
           ["/opt/webscan/db/403_blacklist.txt"])
        2%nat "BATCH" ["/opt/webscan/db/403_blacklist.txt"])).

(** A first target on which [admin/] is found and which the operator then
    skips, and a second target on which nothing is found. *)
Definition skipped_then_scanned (url : string) : Target :=
if String.eqb url "http://a/" then
  reachable "a"
    [{| started := "12:00:00";
        events := [Match (ok "admin/" 200); Interrupt [Line "s"]] |}]
else reachable "b" [].

(** A run without targets. *)
Definition no_targets : Arguments.t := arguments_for [] true None None.

(** ** Vocabulary of the statements *)

Notation "x ← y ; z" := (bind y (fun x => z))
  (at level 20, y at level 100, z at level 200, only parsing) : ctl_scope.
Notation "x ;; z" := (bind x (fun _ => z))
  (at level 100, z at level 200, only parsing, right associativity) : ctl_scope.

Section Vocabulary.

Context `{!FileUtils}.

(** The depth of a frontier entry: the number of ['/'] in it. *)
Definition depth (entry : string) : Z := Z.of_nat (Py.count entry "/").

(** The state after [entry] has been put on the queue and appended to the
    done-set. *)
Definition pushed (entry : string) (st : Controller) : Controller :=
with_doneDirs (doneDirs st ++ [entry]) (with_directories (directories st ++ [entry]) st).

(** The entry direct detection asks to push for a candidate [path]. *)
Definition direct_entry (st : Controller) (path : string) : string :=
currentDirectory st +:+ path.

(** The base a redirect is resolved against, the resolved URL, and the entry
    redirect resolution asks to push. *)
Definition redirect_base (st : Controller) : string :=
Py.rstrip (currentUrl st) "/" +:+ "/" +:+ currentDirectory st.

Definition resolved_url (st : Controller) (path : Path.t) : string :=
urllib_parse.urljoin (redirect_base st)
  (default "" (Response.redirect (Path.response path))).

Definition redirect_entry (st : Controller) (path : Path.t) : string :=
Py.drop (Py.len (redirect_base st)) (resolved_url st path).

(** [if absoluteUrl.startswith(baseUrl) and absoluteUrl != baseUrl and
    absoluteUrl.endswith("/")] *)
Definition in_subtree (st : Controller) (path : Path.t) : bool :=
Py.startswith (resolved_url st path) (redirect_base st)
&& negb (String.eqb (resolved_url st path) (redirect_base st))
&& Py.endswith (resolved_url st path) "/".

(** The state after a call of a callback counted by the progress counter. *)
Definition counted (st : Controller) : Controller := with_index (index st + 1) st.

(** The state after [self.output] received one more call. *)
Definition shown (c : OutputCall) (st : Controller) : Controller :=
with_output (output st ++ [c]) st.

(** The state after the report manager, if there is one, received a call. *)
Definition recorded (c : ReportManager.call) (st : Controller) : Controller :=
with_reportManager (ReportManager.record c <$> reportManager st) st.





(** The state after the attempt to expand the frontier from a reported
    result: by its redirect when it has one, else by its path. *)
Definition expanded (path : Path.t) (st : Controller) : Controller :=
snd (if has_redirect (Path.response path)
     then add_redirect_directory path st
     else add_directory (Path.path path) st).


(** The sinks [setup_reports] attaches for the output files named on the
    command line, in the order in which it attaches them. *)
Definition explicit_reports (arguments : Arguments.t) (requester : Requester.t) :
  list Report :=
match Arguments.simpleOutputFile arguments with
| Some file =>
    [SimpleReport (Requester.host requester) (Requester.port requester)
       (Requester.protocol requester) (Requester.basePath requester) file]
| None => []
end
++ match Arguments.plainTextOutputFile arguments with
   | Some file =>
       [PlainTextReport (Requester.host requester) (Requester.port requester)
          (Requester.protocol requester) (Requester.basePath requester) file]
   | None => []
   end
++ match Arguments.jsonOutputFile arguments with
   | Some file =>
       [JSONReport (Requester.host requester) (Requester.port requester)
          (Requester.protocol requester) (Requester.basePath requester) file]
   | None => []
   end.

(** A statement preserves [P] when [P] holds after it, however it ends,
    whenever [P] held before it. *)
Definition preserves {A} (P : Controller -> Prop) (m : M A) : Prop :=
forall st, P st -> P (snd (m st)).

(** The error log is in the state [closed], after [close_calls] calls of
    [close]. *)
Definition log_state (closed : bool) (close_calls : nat) (st : Controller) : Prop :=
File.closed (errorLog st) = closed /\ File.close_calls (errorLog st) = close_calls.

(** There is a report manager, and the error log is as [log_state] says. *)
Definition steady (closed : bool) (close_calls : nat) (st : Controller) : Prop :=
is_Some (reportManager st) /\ log_state closed close_calls st.

(** Updates that touch neither the report manager nor the error log. *)
Definition frame (f : Controller -> Controller) : Prop :=
forall st, reportManager (f st) = reportManager st /\ errorLog (f st) = errorLog st.

(** The entries [seed_directories] puts on the queue. *)
Definition seeds (arguments : Arguments.t) : list string :=
match Arguments.scanSubdirs arguments with
| Some scanSubdirs => scanSubdirs
| None => [""]
end.

(** A statement raises only exceptions that are [allowed]. *)
Definition raises_only {A} (allowed : exn -> Prop) (m : M A) : Prop :=
forall st e, fst (m st) = Raise e -> allowed e.


(** The targets announced and the base paths scanned, in order. *)
Definition trail (calls : list OutputCall) : list OutputCall :=
List.filter
  (fun c => match c with out_target _ | out_basePath _ => true | _ => false end)
  calls.

End Vocabulary.

Section Further_vocabulary.

Context `{!FileUtils}.

(** [st'] has the settings, the done-set, the queue, the current directory
    and the current URL of [st]. *)
Definition same_frontier (st st' : Controller) : Prop :=
settings st' = settings st /\ doneDirs st' = doneDirs st
/\ directories st' = directories st /\ currentDirectory st' = currentDirectory st
/\ currentUrl st' = currentUrl st.

(** [P] depends on the frontier only and is kept by every push of an entry
    that is new, ends with a slash and respects the depth limit. *)
Definition frontier_property (P : Controller -> Prop) : Prop :=
(forall st st', same_frontier st st' -> P st -> P st')
/\ (forall entry st,
      P st -> (entry ∉ doneDirs st) -> Py.endswith entry "/" = true ->
      depth entry <= recursive_level_max st -> P (pushed entry st)).

(** A property [Q] of the settings and the done-set, as a property of the
    controller. *)
Definition done_inv (Q : Settings -> list string -> Prop) (st : Controller) : Prop :=
Q st (doneDirs st).

(** [done] is the done-set of [st] followed by entries that are new,
    distinct, end with a slash and respect the depth limit of [st], whose
    settings are [s]. *)
Definition grown_from (st : Controller) (s : Settings) (done : list string) : Prop :=
s = settings st
/\ exists added,
     done = doneDirs st ++ added
     /\ NoDup added
     /\ forall entry, entry ∈ added ->
          (entry ∉ doneDirs st)
          /\ Py.endswith entry "/" = true
          /\ depth entry <= recursive_level_max st.

(** From [st] to [st'] the settings have not changed and the done-set has
    only grown, by such entries. *)
Definition grows_by_new_directories (st st' : Controller) : Prop :=
settings st' = settings st
/\ exists added,
     doneDirs st' = doneDirs st ++ added
     /\ NoDup added
     /\ forall entry, entry ∈ added ->
          (entry ∉ doneDirs st)
          /\ Py.endswith entry "/" = true
          /\ depth entry <= recursive_level_max st.

(** During the scan of [dir], taken from the front of a queue whose remainder
    was [rest]: the current directory is [dir] and the queue is [rest]
    followed by what has been pushed since. *)
Definition scanning_front (dir : string) (rest : list string) (st : Controller) : Prop :=
currentDirectory st = dir /\ exists added, directories st = rest ++ added.

(** What the operator prompt leaves as it was: the frontier, the progress
    counter, the report manager and the error log. *)
Definition prompt_frame (st st' : Controller) : Prop :=
same_frontier st st' /\ index st' = index st
/\ reportManager st' = reportManager st /\ errorLog st' = errorLog st.

(** The keys with every typed line in lower case. *)
Definition lower_keys (keys : list Key) : list Key :=
map (fun key => match key with Line option => Line (Py.lower option) | CtrlC => CtrlC end)
  keys.

(** The state after the operator has been prompted once and the fuzzer has
    received [pause] and then [answer]. *)
Definition prompted (answer : FuzzerCall) (st : Controller) : Controller :=
with_fuzzer (fuzzer st ++ [fuzzer_pause; answer])
  (shown (out_in_line (prompt_message st))
     (shown (out_warning "CTRL+C detected: Pausing threads, please wait...") st)).

(** The events of a run that passes without interrupt and without transport
    failure, and the number of them that count as progress. *)
Definition callbacks_only (events : list FuzzEvent) : bool :=
forallb
  (fun event => match event with Interrupt _ | TransportFailure _ => false | _ => true end)
  events.

Definition progress_of (events : list FuzzEvent) : Z :=
Z.of_nat
  (length
     (List.filter
        (fun event => match event with Match _ | NotFound _ => true | _ => false end)
        events)).

(** The report [setup_reports] builds for [autoSave]: a JSON report for the
    format [json], a plain-text report for any other format. *)
Definition autosave_report (autoSaveFormat : string) (requester : Requester.t)
    (outputFile : string) : Report :=
if String.eqb autoSaveFormat "json"
then JSONReport (Requester.host requester) (Requester.port requester)
       (Requester.protocol requester) (Requester.basePath requester) outputFile
else PlainTextReport (Requester.host requester) (Requester.port requester)
       (Requester.protocol requester) (Requester.basePath requester) outputFile.

(** The directory the automatic report is written to. *)
Definition autosave_directory (st : Controller) (requester : Requester.t) : string :=
if batch st then batchDirectoryPath st
else build_path [savePath st; "reports"; Requester.host requester].

(** The exceptions the operator prompt ends with, those that end the scan of
    a frontier, those that end the inner [try] of a target, and those that
    leave the loop over the targets. *)
Definition from_prompt (e : exn) : Prop :=
e = KeyboardInterrupt \/ e = SkipTargetInterrupt \/ e = EOFError.

Definition from_scan (e : exn) : Prop :=
from_prompt e \/ exists message, e = RequestException message.

Definition from_target (e : exn) : Prop :=
e = KeyboardInterrupt \/ e = SkipTargetInterrupt \/ e = EOFError \/ e = SystemExit 1.

Definition from_loop (e : exn) : Prop :=
e = KeyboardInterrupt \/ e = EOFError \/ e = SystemExit 1.

(** The lines the errors of a run add to the error log of the target [url]. *)
Definition error_lines `{!OS} (url : string) (events : list FuzzEvent) : list string :=
flat_map
  (fun event =>
     match event with
     | Error path errorMsg now =>
         [linesep +:+ now +:+ url +:+ " - " +:+ path +:+ " - " +:+ errorMsg]
     | _ => []
     end)
  events.

(** The batch directory of a session started at [now]. *)
Definition batch_directory (st : Controller) (now : string) : string :=
build_path [savePath st; "reports"; "BATCH-" +:+ now].

(** The file [get_blacklists] reads for [status], and the lines it skips. *)
Definition blacklist_file (script_path : string) (status : Z) : string :=
build_path [build_path [script_path; "db"]; format_status status +:+ "_blacklist.txt"].

Definition is_comment (line : string) : bool := Py.startswith (lstrip line) "#".

(** The result [path] is on the black list of its status. *)
Definition blacklisted (st : Controller) (path : Path.t) : Prop :=
exists status blacklist,
  Path.status path = Some status
  /\ blacklists st !! status = Some blacklist
  /\ Path.path path ∈ blacklist.

End Further_vocabulary.

(** ** String facts *)

Lemma app_empty (e : string) : "" +:+ e = e.
Proof. reflexivity. Qed.

Lemma app_String (a : ascii) (p e : string) : String a p +:+ e = String a (p +:+ e).
Proof. reflexivity. Qed.

Lemma startswith_app (p e : string) : Py.startswith (p +:+ e) p = true.
Proof.
  induction p as [|a p IH]; [reflexivity|].
  rewrite app_String. simpl. rewrite Ascii.eqb_refl. exact IH.
Qed.

Lemma startswith_inv (s p : string) :
  Py.startswith s p = true -> s = p +:+ Py.drop (Py.len p) s.
Proof.
  revert s. induction p as [|a p IH]; intros s Hs; simpl in *; [reflexivity|].
  destruct s as [|b s]; [discriminate|].
  apply andb_true_iff in Hs as [Hab Hs].
  apply Ascii.eqb_eq in Hab. subst b.
  rewrite app_String. f_equal. apply IH, Hs.
Qed.

Lemma drop_app (p e : string) : Py.drop (Py.len p) (p +:+ e) = e.
Proof.
  induction p as [|a p IH]; [destruct e; reflexivity|].
  rewrite app_String. exact IH.
Qed.

Lemma startswith_iff (s p : string) :
  Py.startswith s p = true <-> exists e, s = p +:+ e.
Proof.
  split.
  - intros Hs. eexists. apply startswith_inv, Hs.
  - intros [e ->]. apply startswith_app.
Qed.

Lemma list_ascii_app (a b : string) :
  list_ascii_of_string (a +:+ b) = list_ascii_of_string a ++ list_ascii_of_string b.
Proof.
  induction a as [|c a IH]; [reflexivity|].
  rewrite app_String. simpl. now rewrite IH.
Qed.

Lemma string_of_list_app (a b : list ascii) :
  string_of_list_ascii (a ++ b) = string_of_list_ascii a +:+ string_of_list_ascii b.
Proof.
  induction a as [|c a IH]; [reflexivity|].
  simpl. rewrite app_String. now rewrite IH.
Qed.

Lemma rev_app (a b : string) : Py.rev (a +:+ b) = Py.rev b +:+ Py.rev a.
Proof.
  unfold Py.rev. rewrite list_ascii_app, rev_app_distr. apply string_of_list_app.
Qed.

Lemma rev_involutive (s : string) : Py.rev (Py.rev s) = s.
Proof.
  unfold Py.rev.
  rewrite list_ascii_of_string_of_list_ascii, List.rev_involutive.
  apply string_of_list_ascii_of_string.
Qed.

Lemma endswith_iff (s p : string) :
  Py.endswith s p = true <-> exists e, s = e +:+ p.
Proof.
  unfold Py.endswith. rewrite startswith_iff. split.
  - intros [e He]. exists (Py.rev e).
    rewrite <- (rev_involutive s), He, rev_app. now rewrite rev_involutive.
  - intros [e ->]. exists (Py.rev e). apply rev_app.
Qed.


(** ** The frontier *)

Section Frontier.

Context `{!FileUtils}.

Lemma add_directory_cases (path : string) (st : Controller) :
  add_directory path st =
    if recursive st
       && Py.endswith path "/"
       && negb (bool_decide (path ∈ (fun directory => directory +:+ "/") <$> excludeSubdirs st))
       && negb (bool_decide (direct_entry st path ∈ doneDirs st))
       && (depth (direct_entry st path) <=? recursive_level_max st)
    then (true, pushed (direct_entry st path) st)
    else (false, st).
Proof.
  unfold add_directory, direct_entry, depth, pushed.
  destruct (recursive st); simpl; [|reflexivity].
  destruct (Py.endswith path "/"); simpl; [|reflexivity].
  destruct (bool_decide (path ∈ _)); simpl; [reflexivity|].
  destruct (bool_decide (_ ∈ doneDirs st)); simpl; [reflexivity|].
  rewrite Z.gtb_ltb, Z.ltb_antisym.
  destruct (_ <=? _); reflexivity.
Qed.

Lemma add_redirect_directory_cases (path : Path.t) (st : Controller) :
  add_redirect_directory path st =
    if recursive st
       && in_subtree st path
       && negb (bool_decide (redirect_entry st path ∈ doneDirs st))
       && (depth (redirect_entry st path) <=? recursive_level_max st)
    then (true, pushed (redirect_entry st path) st)
    else (false, st).
Proof.
  unfold add_redirect_directory, in_subtree, redirect_entry, resolved_url,
    redirect_base, depth, pushed.
  destruct (recursive st); simpl; [|reflexivity].
  destruct (_ && _ && _); simpl; [|reflexivity].
  destruct (bool_decide _); simpl; [reflexivity|].
  rewrite Z.gtb_ltb, Z.ltb_antisym.
  destruct (_ <=? _); reflexivity.
Qed.

(** C1.  Every entry a push accepts, from direct detection or from redirect
    resolution, has at most [recursive_level_max] separators, the depth being
    counted on the whole entry (current directory plus candidate, or the
    suffix left of the resolved redirect); a call that does not accept
    leaves the controller as it was, and a candidate whose entry would be
    deeper than the limit is not accepted. *)
Theorem push_respects_depth_limit (st : Controller) :
  (forall path : string,
      match add_directory path st with
      | (true, st') =>
          st' = pushed (direct_entry st path) st
          /\ depth (direct_entry st path) <= recursive_level_max st
      | (false, st') => st' = st
      end
      /\ (recursive_level_max st < depth (direct_entry st path) ->
          add_directory path st = (false, st)))
  /\ (forall path : Path.t,
      match add_redirect_directory path st with
      | (true, st') =>
          st' = pushed (redirect_entry st path) st
          /\ depth (redirect_entry st path) <= recursive_level_max st
      | (false, st') => st' = st
      end
      /\ (recursive_level_max st < depth (redirect_entry st path) ->
          add_redirect_directory path st = (false, st))).
Proof.
  split; intros path.
  - rewrite add_directory_cases.
    destruct (Z.leb_spec (depth (direct_entry st path)) (recursive_level_max st)) as [Hle|Hgt].
    + split; [|lia].
      destruct (_ && _ && _ && _); simpl; auto.
    + rewrite andb_false_r. split; [reflexivity | intros _; reflexivity].
  - rewrite add_redirect_directory_cases.
    destruct (Z.leb_spec (depth (redirect_entry st path)) (recursive_level_max st)) as [Hle|Hgt].
    + split; [|lia].
      destruct (_ && _ && _); simpl; auto.
    + rewrite andb_false_r. split; [reflexivity | intros _; reflexivity].
Qed.

Lemma in_subtree_iff (st : Controller) (path : Path.t) :
  in_subtree st path = true <->
  (exists suffix, resolved_url st path = redirect_base st +:+ suffix)
  /\ resolved_url st path <> redirect_base st
  /\ (exists front, resolved_url st path = front +:+ "/").
Proof.
  unfold in_subtree.
  rewrite !andb_true_iff, negb_true_iff, String.eqb_neq, startswith_iff, endswith_iff.
  tauto.
Qed.


Lemma add_directory_excluded (st : Controller) (path : string) :
  path ∈ (fun directory => directory +:+ "/") <$> excludeSubdirs st ->
  add_directory path st = (false, st).
Proof.
  intros Hin. rewrite add_directory_cases.
  rewrite (bool_decide_eq_true_2 _ Hin). simpl.
  now rewrite !andb_false_r.
Qed.

(** C6, as amended.  With the base URL [http://h/] and the current directory
    [a/], so that redirects are resolved against [http://h/a/], recursion
    enabled and a depth limit of at least one: the target [b/] gives the
    entry [b/], pushed unless it is in the done-set; the target [../] is
    rejected; a target that resolves to the base itself, here
    [http://h/a/], is rejected; and the relative target [a/] resolves to
    [http://h/a/a/] and gives the entry [a/], pushed unless it is in the
    done-set. *)
Theorem redirect_acceptance_examples (st : Controller) :
  currentUrl st = "http://h/" ->
  currentDirectory st = "a/" ->
  recursive st = true ->
  1 <= recursive_level_max st ->
  redirect_base st = "http://h/a/"
  /\ add_redirect_directory (moved "b" "b/") st =
       (if bool_decide ("b/" ∈ doneDirs st) then (false, st) else (true, pushed "b/" st))
  /\ add_redirect_directory (moved "up" "../") st = (false, st)
  /\ add_redirect_directory (moved "a" "http://h/a/") st = (false, st)
  /\ resolved_url st (moved "a" "a/") = "http://h/a/a/"
  /\ add_redirect_directory (moved "a" "a/") st =
       (if bool_decide ("a/" ∈ doneDirs st) then (false, st) else (true, pushed "a/" st)).
Proof.
  intros Hurl Hdir Hrec Hmax.
  assert (Hbase : redirect_base st = "http://h/a/")
    by (unfold redirect_base; rewrite Hurl, Hdir; reflexivity).
  assert (Hres : forall candidate target,
             resolved_url st (moved candidate target)
             = urllib_parse.urljoin "http://h/a/" target)
    by (intros; unfold resolved_url; rewrite Hbase; reflexivity).
  assert (Hone : (depth "b/" <=? recursive_level_max st) = true)
    by (apply Z.leb_le; exact Hmax).
  assert (Hone' : (depth "a/" <=? recursive_level_max st) = true)
    by (apply Z.leb_le; exact Hmax).
  repeat split; try exact Hbase.
  - rewrite add_redirect_directory_cases. unfold in_subtree, redirect_entry.
    rewrite Hres, Hbase, Hrec.
    change (urllib_parse.urljoin "http://h/a/" "b/") with "http://h/a/b/".
    change (Py.drop (Py.len "http://h/a/") "http://h/a/b/") with "b/".
    rewrite Hone. simpl. destruct (bool_decide _); reflexivity.
  - rewrite add_redirect_directory_cases. unfold in_subtree.
    rewrite Hres, Hbase.
    change (urllib_parse.urljoin "http://h/a/" "../") with "http://h/".
    simpl. now rewrite andb_false_r.
  - rewrite add_redirect_directory_cases. unfold in_subtree.
    rewrite Hres, Hbase.
    change (urllib_parse.urljoin "http://h/a/" "http://h/a/") with "http://h/a/".
    simpl. now rewrite andb_false_r.
  - rewrite Hres. reflexivity.
  - rewrite add_redirect_directory_cases. unfold in_subtree, redirect_entry.
    rewrite Hres, Hbase, Hrec.
    change (urllib_parse.urljoin "http://h/a/" "a/") with "http://h/a/a/".
    change (Py.drop (Py.len "http://h/a/") "http://h/a/a/") with "a/".
    rewrite Hone'. simpl. destruct (bool_decide _); reflexivity.
Qed.

End Frontier.

(** *** The frontier on concrete controllers *)

(** The examples of C6 on the controller that scans the seed [a/] of
    [http://h/]. *)
Lemma redirect_acceptance_examples_witness :
  redirect_base in_seed_a = "http://h/a/"
  /\ add_redirect_directory (moved "b" "b/") in_seed_a =
       (if bool_decide ("b/" ∈ doneDirs in_seed_a) then (false, in_seed_a)
        else (true, pushed "b/" in_seed_a))
  /\ add_redirect_directory (moved "up" "../") in_seed_a = (false, in_seed_a)
  /\ add_redirect_directory (moved "a" "http://h/a/") in_seed_a = (false, in_seed_a)
  /\ resolved_url in_seed_a (moved "a" "a/") = "http://h/a/a/"
  /\ add_redirect_directory (moved "a" "a/") in_seed_a =
       (if bool_decide ("a/" ∈ doneDirs in_seed_a) then (false, in_seed_a)
        else (true, pushed "a/" in_seed_a)).
Proof.
  apply (redirect_acceptance_examples in_seed_a).
  - reflexivity.
  - reflexivity.
  - reflexivity.
  - vm_compute. discriminate.
Defined.

(** C6 does not hold as stated: while the seed [a/] of [http://h/] is
    scanned, a redirect to the relative target [a/] is not rejected; it
    resolves to [http://h/a/a/] and the entry [a/] is pushed. *)
Lemma redirect_to_own_name_accepted :
  resolved_url in_seed_a (moved "a" "a/") = "http://h/a/a/"
  /\ fst (add_redirect_directory (moved "a" "a/") in_seed_a) = true
  /\ directories (snd (add_redirect_directory (moved "a" "a/") in_seed_a)) = ["a/"]
  /\ add_redirect_directory (moved "a" "a/") in_seed_a <> (false, in_seed_a).
Proof.
  repeat split; try (vm_compute; reflexivity).
  vm_compute. discriminate.
Qed.


(** C4, the code at the failing input: with [admin] among the excluded
    subdirectories, direct detection rejects the candidate [admin/], while a
    redirect that resolves to [http://h/admin/] pushes the entry [admin/]. *)
Lemma excluded_subdirectory_pushed_by_redirect :
  excludeSubdirs excluding_admin = ["admin"]
  /\ add_directory "admin/" excluding_admin = (false, excluding_admin)
  /\ redirect_entry excluding_admin (moved "admin" "admin/") = "admin/"
  /\ add_redirect_directory (moved "admin" "admin/") excluding_admin
     = (true, pushed "admin/" excluding_admin).
Proof. repeat split; vm_compute; reflexivity. Qed.

(** ** The callbacks *)

Section Callbacks.

Context `{!OS, !FileUtils}.


Lemma expanded_currentDirectory (path : Path.t) (st : Controller) :
  currentDirectory (expanded path st) = currentDirectory st.
Proof.
  unfold expanded.
  destruct (has_redirect _);
    [rewrite add_redirect_directory_cases | rewrite add_directory_cases];
    destruct (_ && _); reflexivity.
Qed.

Lemma expanded_reportManager (path : Path.t) (st : Controller) :
  reportManager (expanded path st) = reportManager st.
Proof.
  unfold expanded.
  destruct (has_redirect _);
    [rewrite add_redirect_directory_cases | rewrite add_directory_cases];
    destruct (_ && _); reflexivity.
Qed.

Lemma bind_modify {A} (f : Controller -> Controller) (k : unit -> M A) (st : Controller) :
  bind (modify f) k st = k tt (f st).
Proof. reflexivity. Qed.

(** The block of [match_callback] that reports a result. *)
Lemma report_block (path : Path.t) (status : Z) (st : Controller) :
  let st2 :=
    expanded path (shown (out_status_report (Path.path path) (Path.response path)) st) in
  bind (output_call (out_status_report (Path.path path) (Path.response path)))
    (fun _ =>
       bind (if has_redirect (Path.response path)
             then lift (add_redirect_directory path)
             else lift (add_directory (Path.path path)))
         (fun _ =>
            bind get
              (fun st' =>
                 bind (reportManager_call
                         (ReportManager.add_path (currentDirectory st' +:+ Path.path path)
                            status (Path.response path)))
                   (fun _ => reportManager_call ReportManager.save)))) st
  = (match reportManager st with Some _ => Return tt | None => Raise AttributeError end,
     recorded ReportManager.save
       (recorded
          (ReportManager.add_path (currentDirectory st +:+ Path.path path) status
             (Path.response path)) st2)).
Proof.
  cbv zeta.
  pose proof (expanded_currentDirectory path
                (shown (out_status_report (Path.path path) (Path.response path)) st)) as Hdir.
  pose proof (expanded_reportManager path
                (shown (out_status_report (Path.path path) (Path.response path)) st)) as Hrm.
  unfold expanded in *.
  unfold bind, output_call, modify, lift, get, reportManager_call, recorded.
  fold (shown (out_status_report (Path.path path) (Path.response path)) st).
  destruct (has_redirect _).
  - destruct (add_redirect_directory path _) as [b st2]. simpl in *.
    rewrite Hdir, Hrm. simpl.
    destruct (reportManager st); [reflexivity|].
    destruct st2; simpl in Hrm; subst; reflexivity.
  - destruct (add_directory (Path.path path) _) as [b st2]. simpl in *.
    rewrite Hdir, Hrm. simpl.
    destruct (reportManager st); [reflexivity|].
    destruct st2; simpl in Hrm; subst; reflexivity.
Qed.


(** C8, as amended.  Every call of the not-found callback advances the
    progress counter by one.  The two error callbacks leave the counter as it
    is: [error_callback] adds a connection error to the output, and
    [append_error_log] appends to the open error log the line separator
    followed by the time stamp, the current URL, the path and the message,
    joined by [" - "]. *)
Theorem progress_and_error_log (st : Controller) (path errorMsg now : string) :
  not_found_callback path st
  = (Return tt, shown (out_lastPath path (index st + 1) (dictionary st)) (counted st))
  /\ index (snd (not_found_callback path st)) = index st + 1
  /\ error_callback path errorMsg st = (Return tt, shown out_add_connection_error st)
  /\ index (snd (error_callback path errorMsg st)) = index st
  /\ append_error_log path errorMsg now st
     = (if File.closed (errorLog st) then (Raise ValueError, st)
        else (Return tt,
              with_errorLog
                (File.write
                   (linesep +:+ now +:+ currentUrl st +:+ " - " +:+ path +:+ " - " +:+ errorMsg)
                   (errorLog st))
                st))
  /\ index (snd (append_error_log path errorMsg now st)) = index st.
Proof.
  repeat split.
  unfold append_error_log. destruct (File.closed (errorLog st)); reflexivity.
Qed.

End Callbacks.

(** *** The callbacks on a concrete controller *)

(** A black-listed path is suppressed though its status is not excluded, an
    excluded status is suppressed though the path is on no black list, an
    excluded text in the body suppresses, and without any of these the
    result is shown and recorded. *)
Example exclusion_precedence :
  @match_callback literal_scan listed_files (ok "admin" 403) (filtering [] [])
  = (Return tt, counted (filtering [] []))
  /\ @match_callback literal_scan listed_files (ok "other" 403) (filtering [403] [])
     = (Return tt, counted (filtering [403] []))
  /\ @match_callback literal_scan listed_files (ok "other" 403) (filtering [] ["ok"])
     = (Return tt, counted (filtering [] ["ok"]))
  /\ (let after :=
        snd (@match_callback literal_scan listed_files (ok "other" 403)
               (filtering [] [])) in
      output after = [out_status_report "other" (Path.response (ok "other" 403))]
      /\ (ReportManager.calls <$> reportManager after)
         = Some [ReportManager.add_path "other" 403 (Path.response (ok "other" 403));
                 ReportManager.save]).
Proof. repeat split; vm_compute; reflexivity. Qed.


(** C8 does not hold as stated: when the fuzzer reports an error, both
    error callbacks run, the error log receives its line, and the progress
    counter stays where it was. *)
Lemma error_callbacks_keep_the_counter :
  let after :=
    snd (@process_paths literal_scan posix listed_files
           [Error "admin" "timed out" "[26-11-03 12:00:00] - "] in_seed_a) in
  output after = [out_add_connection_error]
  /\ File.written (errorLog after)
     = [String "010" "[26-11-03 12:00:00] - http://h/ - admin - timed out"]
  /\ index after = index in_seed_a
  /\ ~ (index in_seed_a < index after).
Proof.
  cbv zeta. repeat split; try (vm_compute; reflexivity).
  vm_compute. discriminate.
Qed.

(** ** Setting up the reports *)

Section Reports.

Context `{!OS, !FileUtils}.

Lemma to_uint_nonnil (n : nat) : Nat.to_uint n <> Decimal.Nil.
Proof.
  intros Hnil. pose proof (DecimalNat.Unsigned.of_to n) as Hn.
  rewrite Hnil in Hn. simpl in Hn. subst n. discriminate.
Qed.

Lemma str_inj (a b : nat) : str a = str b -> a = b.
Proof.
  unfold str. intros Heq.
  apply (f_equal NilZero.uint_of_string) in Heq.
  rewrite !NilZero.usu in Heq by apply to_uint_nonnil.
  injection Heq as Heq. now apply DecimalNat.Unsigned.to_uint_inj.
Qed.

Lemma app_cancel (p a b : string) : p +:+ a = p +:+ b -> a = b.
Proof.
  induction p as [|c p IH]; [auto|].
  rewrite !app_String. intros [= Heq]. auto.
Qed.

Lemma suffixed_inj (outputFile : string) (a b : nat) :
  outputFile +:+ "_" +:+ str a = outputFile +:+ "_" +:+ str b -> a = b.
Proof. intros Heq. apply app_cancel, app_cancel in Heq. now apply str_inj. Qed.

Lemma free_index_search (fs0 : FS) (outputFile : string) (turns i : nat) (seen : list string) :
  List.NoDup seen ->
  (forall s, In s seen -> In s (listing fs0)) ->
  (forall s, In s seen -> exists k, (k < i)%nat /\ s = outputFile +:+ "_" +:+ str k) ->
  (length (listing fs0) <= length seen + turns)%nat ->
  exists_ fs0 (outputFile +:+ "_" +:+ str (free_index fs0 outputFile i turns)) = false.
Proof.
  revert i seen. induction turns as [|turns IH]; intros i seen Hnd Hsub Hold Hlen; simpl.
  - destruct (exists_ fs0 _) eqn:Hex; [|reflexivity]. exfalso.
    apply exists_listing in Hex.
    assert (Hall : incl (listing fs0) seen).
    { apply NoDup_length_incl; [exact Hnd | lia | exact Hsub]. }
    destruct (Hold _ (Hall _ Hex)) as (k & Hk & Heq).
    apply suffixed_inj in Heq. lia.
  - destruct (exists_ fs0 (outputFile +:+ "_" +:+ str i)) eqn:Hex; [|exact Hex].
    apply (IH (S i) ((outputFile +:+ "_" +:+ str i) :: seen)).
    + constructor; [|exact Hnd].
      intros Hin. destruct (Hold _ Hin) as (k & Hk & Heq).
      apply suffixed_inj in Heq. lia.
    + intros s [<-|Hin]; [now apply exists_listing | auto].
    + intros s [<-|Hin]; [exists i; split; [lia|reflexivity]|].
      destruct (Hold _ Hin) as (k & Hk & Heq). exists k. split; [lia|exact Heq].
    + simpl. lia.
Qed.

(** The bounded search of [setup_reports] does what the unbounded loop does:
    it passes over taken names only, and the name it stops at is free. *)
Lemma free_index_passes_taken (fs0 : FS) (outputFile : string) (turns i k : nat) :
  (i <= k < free_index fs0 outputFile i turns)%nat ->
  exists_ fs0 (outputFile +:+ "_" +:+ str k) = true.
Proof.
  revert i. induction turns as [|turns IH]; intros i Hk; simpl in Hk; [lia|].
  destruct (exists_ fs0 (outputFile +:+ "_" +:+ str i)) eqn:Hex; [|lia].
  destruct (Nat.eq_dec k i) as [->|Hne]; [exact Hex|].
  apply (IH (S i)). lia.
Qed.

Lemma free_index_is_free (fs0 : FS) (outputFile : string) :
  exists_ fs0
    (outputFile +:+ "_" +:+ str (free_index fs0 outputFile 2 (length (listing fs0))))
  = false.
Proof.
  apply (free_index_search fs0 outputFile _ 2 []).
  - constructor.
  - intros s [].
  - intros s [].
  - simpl. lia.
Qed.

End Reports.

(** *** The reports of a concrete run *)


Example autosave_simple_on_empty_disk :
  let '(r, st') :=
    @setup_reports posix listed_files (requester_of "h") "26-11-03_12-00-00"
      saving_simple in
  r = Return tt
  /\ reportManager st'
     = Some {| ReportManager.outputs :=
                 [PlainTextReport "h" 80 "http" "/"
                    "/opt/webscan/reports/h/26-11-03_12-00-00"];
               ReportManager.calls := [] |}
  /\ fs st' = ["/opt/webscan/reports/h"].
Proof. vm_compute. repeat split. Qed.

(** ** The loop over the targets *)

Section Targets.

Context `{!BodyScan, !OS, !FileUtils}.

Lemma preserves_ret {A} P (a : A) : preserves P (ret a).
Proof. intros st HP. exact HP. Qed.

Lemma preserves_raise {A} P (e : exn) : preserves P (@raise _ A e).
Proof. intros st HP. exact HP. Qed.

Lemma preserves_get P : preserves P get.
Proof. intros st HP. exact HP. Qed.

Lemma preserves_bind {A B} P (m : M A) (k : A -> M B) :
  preserves P m -> (forall a, preserves P (k a)) -> preserves P (bind m k).
Proof.
  intros Hm Hk st HP. unfold bind.
  specialize (Hm st HP). destruct (m st) as [[a|e] st']; simpl in *; [|exact Hm].
  apply Hk, Hm.
Qed.

Lemma preserves_try_except {A} P (body : M A) (handler : exn -> option (M A)) :
  preserves P body ->
  (forall e h, handler e = Some h -> preserves P h) ->
  preserves P (try_except body handler).
Proof.
  intros Hb Hh st HP. unfold try_except.
  specialize (Hb st HP). destruct (body st) as [[a|e] st']; simpl in *; [exact Hb|].
  destruct (handler e) as [h|] eqn:He; [|exact Hb].
  apply (Hh e h He), Hb.
Qed.

Lemma preserves_try_finally {A} P (body : M A) (cleanup : M unit) :
  preserves P body -> preserves P cleanup -> preserves P (try_finally body cleanup).
Proof.
  intros Hb Hc st HP. unfold try_finally.
  specialize (Hb st HP). destruct (body st) as [r st1]; simpl in *.
  specialize (Hc st1 Hb). destruct (cleanup st1) as [[u|e] st2]; exact Hc.
Qed.

Lemma preserves_in_worker P (callback : M unit) :
  preserves P callback -> preserves P (in_worker callback).
Proof.
  intros Hc. apply preserves_try_except; [exact Hc|].
  intros e h [= <-]. apply preserves_ret.
Qed.

Lemma steady_modify c n (f : Controller -> Controller) :
  frame f -> preserves (steady c n) (modify f).
Proof.
  intros Hf st HP. unfold modify. simpl.
  destruct (Hf st) as [Hrm Hlog]. unfold steady, log_state in *.
  now rewrite Hrm, Hlog.
Qed.


Lemma steady_lift {A} c n (f : Controller -> A * Controller) :
  (forall st, reportManager (snd (f st)) = reportManager st
              /\ errorLog (snd (f st)) = errorLog st) ->
  preserves (steady c n) (lift f).
Proof.
  intros Hf st HP. unfold lift. specialize (Hf st).
  destruct (f st) as [a st']. simpl in *. destruct Hf as [Hrm Hlog].
  unfold steady, log_state in *. now rewrite Hrm, Hlog.
Qed.

Lemma steady_reportManager_call c n (call : ReportManager.call) :
  preserves (steady c n) (reportManager_call call).
Proof.
  intros st HP. unfold reportManager_call.
  destruct (reportManager st) eqn:Hrm; simpl; [|exact HP].
  destruct HP as [_ Hlog]. split; [eauto | exact Hlog].
Qed.

Lemma steady_reportManager_add_output c n (r : Report) :
  preserves (steady c n) (reportManager_add_output r).
Proof.
  intros st HP. unfold reportManager_add_output.
  destruct (reportManager st) eqn:Hrm; simpl; [|exact HP].
  destruct HP as [_ Hlog]. split; [eauto | exact Hlog].
Qed.

Lemma steady_append_error_log c n (path errorMsg now : string) :
  preserves (steady c n) (append_error_log path errorMsg now).
Proof.
  intros st HP. unfold append_error_log.
  destruct (File.closed (errorLog st)); exact HP.
Qed.

Ltac frame_step :=
  lazymatch goal with
  | |- preserves _ (bind _ _) => apply preserves_bind; [|intros ?]
  | |- preserves _ (ret _) => apply preserves_ret
  | |- preserves _ (raise _) => apply preserves_raise
  | |- preserves _ (sys_exit _) => apply preserves_raise
  | |- preserves _ get => apply preserves_get
  | |- preserves _ (in_worker _) => apply preserves_in_worker
  | |- preserves _ (output_call _) => apply steady_modify; intros ?; split; reflexivity
  | |- preserves _ (fuzzer_call _) => apply steady_modify; intros ?; split; reflexivity
  | |- preserves _ (modify _) => apply steady_modify; intros ?; split; reflexivity
  | |- preserves _ (reportManager_call _) => apply steady_reportManager_call
  | |- preserves _ (reportManager_add_output _) => apply steady_reportManager_add_output
  | |- preserves _ (append_error_log _ _ _) => apply steady_append_error_log
  | |- preserves _ (try_except _ _) =>
      apply preserves_try_except;
      [|let e := fresh "e" in
        let h := fresh "h" in
        let He := fresh "He" in
        intros e h He; destruct e; inversion He; subst; clear He]
  | |- preserves _ (let _ := _ in _) => cbv zeta
  | |- preserves _ (if ?b then _ else _) => destruct b
  | |- preserves _ (match ?x with _ => _ end) => destruct x
  end.

Ltac frames := repeat frame_step.

(** From a goal about one state back to a goal about the statement. *)
Ltac as_statement :=
  lazymatch goal with
  | HP : ?P ?st |- ?P (snd (?m ?st)) => revert st HP; change (preserves P m)
  end.

Lemma add_directory_frame (path : string) (st : Controller) :
  reportManager (snd (add_directory path st)) = reportManager st
  /\ errorLog (snd (add_directory path st)) = errorLog st.
Proof. rewrite add_directory_cases. destruct (_ && _); split; reflexivity. Qed.

Lemma add_redirect_directory_frame (path : Path.t) (st : Controller) :
  reportManager (snd (add_redirect_directory path st)) = reportManager st
  /\ errorLog (snd (add_redirect_directory path st)) = errorLog st.
Proof. rewrite add_redirect_directory_cases. destruct (_ && _); split; reflexivity. Qed.

Lemma steady_match_callback c n (path : Path.t) :
  preserves (steady c n) (match_callback path).
Proof.
  unfold match_callback. frames.
  intros st HP.
  destruct (Path.status path); [|exact HP].
  destruct (_ && _ && _); [|exact HP].
  destruct (existsb _ _); [exact HP|].
  destruct (existsb _ _); [exact HP|].
  as_statement.
  frames.
  - apply steady_lift, add_redirect_directory_frame.
  - apply steady_lift, add_directory_frame.
Qed.

Lemma steady_not_found_callback c n (path : string) :
  preserves (steady c n) (not_found_callback path).
Proof. unfold not_found_callback. frames. Qed.

Lemma steady_error_callback c n (path errorMsg : string) :
  preserves (steady c n) (error_callback path errorMsg).
Proof. unfold error_callback. frames. Qed.

Lemma steady_prompt_loop c n (keys : list Key) :
  preserves (steady c n) (prompt_loop keys).
Proof.
  induction keys as [|key keys IH]; simpl; frames. exact IH.
Qed.

Lemma steady_handle_interrupt c n (keys : list Key) :
  preserves (steady c n) (handle_interrupt keys).
Proof.
  unfold handle_interrupt. frames. apply steady_prompt_loop.
Qed.

Lemma steady_process_paths c n (events : list FuzzEvent) :
  preserves (steady c n) (process_paths events).
Proof.
  induction events as [|event events IH]; simpl; frames;
    auto using steady_match_callback, steady_not_found_callback,
      steady_error_callback, steady_handle_interrupt.
Qed.

Lemma steady_scan_next c n (run : DirRun) :
  preserves (steady c n) (scan_next run).
Proof.
  intros st HP. unfold scan_next.
  destruct (directories st) as [|dir rest]; [exact HP|].
  as_statement. frames.
  apply steady_process_paths.
Qed.

Lemma steady_drain c n (turns : nat) : preserves (steady c n) (drain turns).
Proof. induction turns; simpl; frames; auto using steady_scan_next. Qed.

Lemma steady_wait c n (runs : list DirRun) : preserves (steady c n) (wait runs).
Proof.
  induction runs as [|run runs IH]; intros st HP; simpl;
    (destruct (queue_empty st); [exact HP|]).
  - apply steady_drain, HP.
  - as_statement. frames; auto using steady_scan_next.
Qed.


Lemma with_directories_same (st : Controller) : with_directories (directories st) st = st.
Proof. destruct st. reflexivity. Qed.

Lemma put_each (scanSubdirs : list string) (acc : M unit) (st0 st1 : Controller) :
  acc st0 = (Return tt, st1) ->
  fold_left
    (fun (acc : M unit) subdir =>
       bind acc (fun _ => modify (fun st => with_directories (directories st ++ [subdir]) st)))
    scanSubdirs acc st0
  = (Return tt, with_directories (directories st1 ++ scanSubdirs) st1).
Proof.
  revert acc st1. induction scanSubdirs as [|subdir rest IH]; intros acc st1 Hacc; simpl.
  - rewrite app_nil_r, with_directories_same. exact Hacc.
  - erewrite IH; [|unfold bind; rewrite Hacc; reflexivity].
    simpl. now rewrite <- app_assoc.
Qed.

Lemma seed_directories_eq (st : Controller) :
  seed_directories st
  = (Return tt, with_directories (directories st ++ seeds (arguments st)) st).
Proof.
  unfold seed_directories, seeds, bind, get.
  destruct (Arguments.scanSubdirs (arguments st)); [|reflexivity].
  now apply put_each.
Qed.

Lemma steady_seed_directories c n : preserves (steady c n) seed_directories.
Proof. intros st HP. rewrite seed_directories_eq. exact HP. Qed.

Lemma steady_setup_reports c n (requester : Requester.t) (now : string) :
  preserves (steady c n) (setup_reports requester now).
Proof. unfold setup_reports. frames. Qed.

(** *** What a statement can raise *)

Lemma raises_ret {A} allowed (a : A) : raises_only allowed (ret a).
Proof. intros st e [=]. Qed.

Lemma raises_get allowed : raises_only allowed get.
Proof. intros st e [=]. Qed.

Lemma raises_modify allowed f : raises_only allowed (modify f).
Proof. intros st e [=]. Qed.

Lemma raises_raise {A} (allowed : exn -> Prop) (e : exn) :
  allowed e -> raises_only allowed (@raise _ A e).
Proof. intros He st e' [= <-]. exact He. Qed.

Lemma raises_bind {A B} allowed (m : M A) (k : A -> M B) :
  raises_only allowed m -> (forall a, raises_only allowed (k a)) ->
  raises_only allowed (bind m k).
Proof.
  intros Hm Hk st e. unfold bind. specialize (Hm st).
  destruct (m st) as [[a|e'] st']; simpl in *.
  - apply Hk.
  - intros [= <-]. now apply Hm.
Qed.


Lemma raises_reportManager_add_output (allowed : exn -> Prop) (r : Report) :
  allowed AttributeError -> raises_only allowed (reportManager_add_output r).
Proof.
  intros Ha st e. unfold reportManager_add_output.
  destruct (reportManager st); simpl; [intros [=] | intros [= <-]; exact Ha].
Qed.

Ltac raises_step :=
  lazymatch goal with
  | |- raises_only _ (bind _ _) => apply raises_bind; [|intros ?]
  | |- raises_only _ (ret _) => apply raises_ret
  | |- raises_only _ get => apply raises_get
  | |- raises_only _ (modify _) => apply raises_modify
  | |- raises_only _ (output_call _) => apply raises_modify
  | |- raises_only _ (raise _) => apply raises_raise
  | |- raises_only _ (sys_exit _) => apply raises_raise
  | |- raises_only _ (reportManager_add_output _) => apply raises_reportManager_add_output
  | |- raises_only _ (let _ := _ in _) => cbv zeta
  | |- raises_only _ (if ?b then _ else _) => destruct b
  | |- raises_only _ (match ?x with _ => _ end) => destruct x
  end.

Lemma setup_reports_raises (requester : Requester.t) (now : string) :
  raises_only (fun e => e = SystemExit 1 \/ e = AttributeError)
    (setup_reports requester now).
Proof. unfold setup_reports. repeat raises_step; auto. Qed.


Lemma raises_weaken {A} (allowed allowed' : exn -> Prop) (m : M A) :
  (forall e, allowed e -> allowed' e) -> raises_only allowed m -> raises_only allowed' m.
Proof. intros Himp Hm st e He. apply Himp, (Hm st e He). Qed.




(** *** One target *)

Lemma steady_after_reset c n (st : Controller) :
  log_state c n st -> steady c n (with_reportManager (Some ReportManager.new) st).
Proof. intros Hlog. split; [eexists; reflexivity | exact Hlog]. Qed.


Lemma prepare_target_steady c n (target : Target) (url : string) (st : Controller) :
  log_state c n st -> steady c n (snd (prepare_target target url st)).
Proof.
  intros Hlog. apply (steady_after_reset c n) in Hlog.
  unfold prepare_target. rewrite bind_modify.
  set (st0 := with_reportManager (Some ReportManager.new) st) in *. clearbody st0.
  as_statement. frames;
    auto using steady_seed_directories, steady_setup_reports.
Qed.

Lemma scan_target_steady c n (target : Target) (url : string) (st : Controller) :
  log_state c n st -> steady c n (snd (scan_target target url st)).
Proof.
  intros Hlog. apply (prepare_target_steady c n target url) in Hlog.
  unfold scan_target, bind.
  destruct (prepare_target target url st) as [[requester|e] st1]; simpl in *;
    [|exact Hlog].
  as_statement. frames; [apply steady_wait | intros st0 HP; exact HP].
Qed.

Lemma caught_steady c n (target : Target) (url : string) (st : Controller) :
  log_state c n st ->
  steady c n
    (snd (try_except (scan_target target url)
            (fun e => match e with
                      | SkipTargetInterrupt => Some (ret tt)
                      | _ => None
                      end) st)).
Proof.
  intros Hlog. apply (scan_target_steady c n target url) in Hlog.
  unfold try_except.
  destruct (scan_target target url st) as [[u|[]] st1]; exact Hlog.
Qed.

Lemma target_iteration_unfold (target : Target) (url : string) (st : Controller) :
  exists manager st1,
    snd (scan_target target url st) = st1
    /\ reportManager st1 = Some manager
    /\ target_iteration target url st
       = (match fst (scan_target target url st) with
          | Return _ | Raise SkipTargetInterrupt => Return tt
          | Raise e => Raise e
          end,
          with_reportManager
            (Some (ReportManager.record ReportManager.save manager)) st1).
Proof.
  pose proof (scan_target_steady (File.closed (errorLog st))
                (File.close_calls (errorLog st)) target url st
                (conj eq_refl eq_refl)) as [[manager Hm] _].
  exists manager, (snd (scan_target target url st)).
  split; [reflexivity|]. split; [exact Hm|].
  unfold target_iteration, try_finally, try_except, reportManager_call.
  destruct (scan_target target url st) as [[[]|e] st1]; simpl in *.
  - rewrite Hm. reflexivity.
  - destruct e; simpl; rewrite Hm; reflexivity.
Qed.








End Targets.

(** *** Concrete runs *)

(** C9.  Seeding puts the caller's scan subdirectories, or the empty string
    when there are none, at the back of the queue as they are and changes
    nothing else: there is no test of the depth, none of the excluded
    subdirectories, and the done-set stays as it was.  So a seed can be
    queued again: in the run [seeded_run] the excluded seed [a/] and the seed
    [1/2/3/4/], deeper than the limit of three, are both scanned, and the
    seed [a/b/], found again as a directory while [a/] is scanned, is scanned
    twice. *)
Theorem seeds_bypass_the_push_checks :
  (forall (files : FileUtils) (st : @Controller files),
      seed_directories st
      = (Return tt, with_directories (directories st ++ seeds (arguments st)) st)
      /\ doneDirs (snd (seed_directories st)) = doneDirs st)
  /\ (let '(r, final) := @run literal_scan posix listed_files a_holds_b seeded_run in
      r = Return tt
      /\ excludeSubdirs seeded_run = ["a"]
      /\ recursive_level_max seeded_run = 3
      /\ trail (output final)
         = [out_target "http://h/"; out_basePath "/a/"; out_basePath "/a/b/";
            out_basePath "/1/2/3/4/"; out_basePath "/a/b/"]
      /\ doneDirs final = ["a/b/"]).
Proof.
  split.
  - intros files st. rewrite seed_directories_eq. split; reflexivity.
  - vm_compute. repeat split.
Qed.

(** C5, the code at the failing input: two targets that both have a
    directory [admin/].  The report manager of the second target is a new
    one, holding only its own result, but the done-set still holds the
    [admin/] of the first target, so [admin/] is pushed and scanned for the
    first target only. *)
Lemma done_set_outlives_its_target :
  let '(r, final) := @run literal_scan posix listed_files both_have_admin two_targets in
  r = Return tt
  /\ trail (output final)
     = [out_target "http://a/"; out_basePath "/"; out_basePath "/admin/";
        out_target "http://b/"; out_basePath "/"]
  /\ doneDirs final = ["admin/"]
  /\ (ReportManager.calls <$> reportManager final)
     = Some [ReportManager.add_path "admin/" 200 (Path.response (ok "admin/" 200));
             ReportManager.save; ReportManager.save; ReportManager.close].
Proof. vm_compute. repeat split. Qed.

(** Four targets with different fates: the run visits all of them, reports
    what was found before a failure, abandons the rest of a skipped target,
    and closes the error log once. *)
Example run_of_four_targets :
  let '(r, final) := @run literal_scan posix listed_files mixed_fortunes four_targets in
  r = Return tt
  /\ trail (output final)
     = [out_target "http://down/";
        out_target "http://flaky/"; out_basePath "/";
        out_target "http://skipped/"; out_basePath "/";
        out_target "http://fine/"; out_basePath "/"]
  /\ (ReportManager.calls <$> reportManager final)
     = Some [ReportManager.add_path "index" 200 (Path.response (ok "index" 200));
             ReportManager.save; ReportManager.save; ReportManager.close]
  /\ File.closed (errorLog final) = true
  /\ File.close_calls (errorLog final) = 1%nat.
Proof. vm_compute. repeat split. Qed.

(** ** Further properties of the frontier *)

Lemma app_assoc_string (a b c : string) : (a +:+ b) +:+ c = a +:+ (b +:+ c).
Proof.
  induction a as [|x a IH]; [reflexivity|].
  rewrite !app_String. now rewrite IH.
Qed.

Lemma endswith_app (front s p : string) :
  Py.endswith s p = true -> Py.endswith (front +:+ s) p = true.
Proof.
  rewrite !endswith_iff. intros [e ->]. exists (front +:+ e).
  now rewrite app_assoc_string.
Qed.

Lemma endswith_slash_suffix (base e : string) :
  Py.endswith (base +:+ e) "/" = true -> e <> "" -> Py.endswith e "/" = true.
Proof.
  rewrite !endswith_iff. intros [front Hfront] Hne. revert front Hfront.
  induction base as [|c base IH]; intros front Hfront.
  - exists front. exact Hfront.
  - rewrite app_String in Hfront. destruct front as [|c' front].
    + rewrite app_empty in Hfront. injection Hfront as _ Hempty.
      destruct base; [rewrite app_empty in Hempty; contradiction|discriminate].
    + rewrite app_String in Hfront. injection Hfront as _ Hrest.
      exact (IH front Hrest).
Qed.

Section Pushes.
Context `{!FileUtils}.

Lemma direct_push_facts (st : Controller) (path : string) :
  fst (add_directory path st) = true ->
  add_directory path st = (true, pushed (direct_entry st path) st)
  /\ Py.endswith (direct_entry st path) "/" = true
  /\ (direct_entry st path ∉ doneDirs st)
  /\ depth (direct_entry st path) <= recursive_level_max st
  /\ (path ∉ (fun directory => directory +:+ "/") <$> excludeSubdirs st)
  /\ recursive st = true.
Proof.
  rewrite add_directory_cases.
  destruct (recursive st); [|discriminate].
  destruct (Py.endswith path "/") eqn:Hend; [|discriminate].
  destruct (bool_decide_reflect
              (path ∈ (fun directory => directory +:+ "/") <$> excludeSubdirs st))
    as [|Hex]; [discriminate|].
  destruct (bool_decide_reflect (direct_entry st path ∈ doneDirs st)) as [|Hnew];
    [discriminate|].
  destruct (Z.leb_spec (depth (direct_entry st path)) (recursive_level_max st))
    as [Hle|]; [|discriminate].
  intros _. repeat split; auto.
  unfold direct_entry. now apply endswith_app.
Qed.

Lemma redirect_push_facts (st : Controller) (path : Path.t) :
  fst (add_redirect_directory path st) = true ->
  add_redirect_directory path st = (true, pushed (redirect_entry st path) st)
  /\ Py.endswith (redirect_entry st path) "/" = true
  /\ redirect_entry st path <> ""
  /\ (redirect_entry st path ∉ doneDirs st)
  /\ depth (redirect_entry st path) <= recursive_level_max st
  /\ resolved_url st path = redirect_base st +:+ redirect_entry st path
  /\ recursive st = true.
Proof.
  rewrite add_redirect_directory_cases.
  destruct (recursive st); [|discriminate].
  destruct (in_subtree st path) eqn:Hin; [|discriminate].
  destruct (bool_decide_reflect (redirect_entry st path ∈ doneDirs st)) as [|Hnew];
    [discriminate|].
  destruct (Z.leb_spec (depth (redirect_entry st path)) (recursive_level_max st))
    as [Hle|]; [|discriminate].
  intros _.
  apply in_subtree_iff in Hin as (Hpre & Hne & Hend).
  assert (Heq : resolved_url st path = redirect_base st +:+ redirect_entry st path)
    by (apply startswith_inv, startswith_iff, Hpre).
  assert (Hnonempty : redirect_entry st path <> "").
  { intros Hempty. apply Hne. rewrite Heq, Hempty.
    clear. induction (redirect_base st) as [|c b IH]; [reflexivity|].
    rewrite app_String. now rewrite IH. }
  repeat split; auto.
  apply (endswith_slash_suffix (redirect_base st)); [|exact Hnonempty].
  rewrite <- Heq. apply endswith_iff, Hend.
Qed.

Lemma direct_rejection_unchanged (st : Controller) (path : string) :
  fst (add_directory path st) = false -> add_directory path st = (false, st).
Proof. rewrite add_directory_cases. destruct (_ && _); [discriminate|reflexivity]. Qed.

Lemma redirect_rejection_unchanged (st : Controller) (path : Path.t) :
  fst (add_redirect_directory path st) = false ->
  add_redirect_directory path st = (false, st).
Proof.
  rewrite add_redirect_directory_cases. destruct (_ && _); [discriminate|reflexivity].
Qed.

(** X1.  What an accepted push shows about its entry.  When [add_directory]
    accepts a candidate, recursion is on, the candidate is not an excluded
    name followed by a slash, and the entry (the current directory followed
    by the candidate) ends with a slash and was not in the done-set.  When
    [add_redirect_directory] accepts a result, recursion is on, the resolved
    URL is the base followed by the entry, and the entry is not empty, ends
    with a slash and was not in the done-set. *)
Theorem accepted_push_is_a_new_directory (st : Controller) :
  (forall path : string,
      fst (add_directory path st) = true ->
      Py.endswith (direct_entry st path) "/" = true
      /\ (direct_entry st path ∉ doneDirs st)
      /\ (path ∉ (fun directory => directory +:+ "/") <$> excludeSubdirs st)
      /\ recursive st = true)
  /\ (forall path : Path.t,
        fst (add_redirect_directory path st) = true ->
        Py.endswith (redirect_entry st path) "/" = true
        /\ redirect_entry st path <> ""
        /\ (redirect_entry st path ∉ doneDirs st)
        /\ resolved_url st path = redirect_base st +:+ redirect_entry st path
        /\ recursive st = true).
Proof.
  split; intros path Hacc.
  - destruct (direct_push_facts st path Hacc) as (_ & ? & ? & _ & ? & ?). auto.
  - destruct (redirect_push_facts st path Hacc) as (_ & ? & ? & ? & _ & ? & ?). auto.
Qed.

(** X2.  No entry is pushed twice.  A candidate whose entry is in the
    done-set is rejected by either route and leaves the controller as it is;
    so the same candidate offered twice in a row is rejected the second
    time, and an entry accepted by one route is rejected when the other route
    resolves to it. *)
Theorem no_push_twice (st : Controller) :
  (forall path : string,
      direct_entry st path ∈ doneDirs st -> add_directory path st = (false, st))
  /\ (forall path : Path.t,
        redirect_entry st path ∈ doneDirs st ->
        add_redirect_directory path st = (false, st))
  /\ (forall path : string,
        fst (add_directory path (snd (add_directory path st))) = false)
  /\ (forall path : Path.t,
        fst (add_redirect_directory path (snd (add_redirect_directory path st))) = false)
  /\ (forall (path : string) (redirect : Path.t),
        fst (add_directory path st) = true ->
        redirect_entry st redirect = direct_entry st path ->
        add_redirect_directory redirect (snd (add_directory path st))
        = (false, snd (add_directory path st)))
  /\ (forall (path : string) (redirect : Path.t),
        fst (add_redirect_directory redirect st) = true ->
        direct_entry st path = redirect_entry st redirect ->
        add_directory path (snd (add_redirect_directory redirect st))
        = (false, snd (add_redirect_directory redirect st))).
Proof.
  assert (Hd : forall (st : Controller) path,
             direct_entry st path ∈ doneDirs st -> add_directory path st = (false, st)).
  { intros st0 path Hin. rewrite add_directory_cases.
    rewrite (bool_decide_eq_true_2 _ Hin). simpl. now rewrite andb_false_r. }
  assert (Hr : forall (st : Controller) path,
             redirect_entry st path ∈ doneDirs st ->
             add_redirect_directory path st = (false, st)).
  { intros st0 path Hin. rewrite add_redirect_directory_cases.
    rewrite (bool_decide_eq_true_2 _ Hin). simpl. now rewrite andb_false_r. }
  split; [apply Hd|]. split; [apply Hr|].
  split; [|split; [|split]].
  - intros path. destruct (add_directory path st) as [[] st'] eqn:Hfirst; simpl.
    + rewrite add_directory_cases in Hfirst.
      destruct (_ && _) in Hfirst; [|discriminate]. injection Hfirst as <-.
      rewrite Hd; [reflexivity|]. unfold pushed, direct_entry. simpl.
      apply elem_of_app. right. apply list_elem_of_singleton. reflexivity.
    + assert (st' = st) as ->.
      { rewrite add_directory_cases in Hfirst.
        destruct (_ && _) in Hfirst; [discriminate|]. now injection Hfirst. }
      now rewrite Hfirst.
  - intros path.
    destruct (add_redirect_directory path st) as [[] st'] eqn:Hfirst; simpl.
    + rewrite add_redirect_directory_cases in Hfirst.
      destruct (_ && _) in Hfirst; [|discriminate]. injection Hfirst as <-.
      rewrite Hr; [reflexivity|]. unfold pushed, redirect_entry. simpl.
      apply elem_of_app. right. apply list_elem_of_singleton. reflexivity.
    + assert (st' = st) as ->.
      { rewrite add_redirect_directory_cases in Hfirst.
        destruct (_ && _) in Hfirst; [discriminate|]. now injection Hfirst. }
      now rewrite Hfirst.
  - intros path redirect Hacc Heq.
    rewrite add_directory_cases in *.
    destruct (_ && _); [|discriminate]. simpl.
    apply Hr. unfold pushed. simpl.
    change (redirect_entry _ redirect) with (redirect_entry st redirect).
    rewrite Heq. apply elem_of_app. right. apply list_elem_of_singleton. reflexivity.
  - intros path redirect Hacc Heq.
    rewrite add_redirect_directory_cases in *.
    destruct (_ && _); [|discriminate]. simpl.
    apply Hd. unfold pushed. simpl.
    change (direct_entry _ path) with (direct_entry st path).
    rewrite Heq. apply elem_of_app. right. apply list_elem_of_singleton. reflexivity.
Qed.
End Pushes.

(** *** Properties kept while a frontier is scanned *)

Section Frontier_invariants.
Context `{!BodyScan, !OS, !FileUtils}.

Variable P : Controller -> Prop.
Hypothesis HP : frontier_property P.

Lemma frontier_modify (f : Controller -> Controller) :
  (forall st, same_frontier st (f st)) -> preserves P (modify f).
Proof. intros Hf st Hst. exact (proj1 HP st (f st) (Hf st) Hst). Qed.

Lemma frontier_add_directory (path : string) :
  preserves P (lift (add_directory path)).
Proof.
  intros st Hst. unfold lift.
  destruct (fst (add_directory path st)) eqn:Hacc.
  - destruct (direct_push_facts st path Hacc) as (-> & Hend & Hnew & Hdepth & _).
    simpl. now apply (proj2 HP).
  - rewrite (direct_rejection_unchanged st path Hacc). exact Hst.
Qed.

Lemma frontier_add_redirect_directory (path : Path.t) :
  preserves P (lift (add_redirect_directory path)).
Proof.
  intros st Hst. unfold lift.
  destruct (fst (add_redirect_directory path st)) eqn:Hacc.
  - destruct (redirect_push_facts st path Hacc) as (-> & Hend & _ & Hnew & Hdepth & _).
    simpl. now apply (proj2 HP).
  - rewrite (redirect_rejection_unchanged st path Hacc). exact Hst.
Qed.

Lemma frontier_reportManager_call (call : ReportManager.call) :
  preserves P (reportManager_call call).
Proof.
  intros st Hst. unfold reportManager_call.
  destruct (reportManager st); simpl; [|exact Hst].
  apply (proj1 HP st); [repeat split|exact Hst].
Qed.

Lemma frontier_reportManager_add_output (r : Report) :
  preserves P (reportManager_add_output r).
Proof.
  intros st Hst. unfold reportManager_add_output.
  destruct (reportManager st); simpl; [|exact Hst].
  apply (proj1 HP st); [repeat split|exact Hst].
Qed.

Lemma frontier_append_error_log (path errorMsg now : string) :
  preserves P (append_error_log path errorMsg now).
Proof.
  intros st Hst. unfold append_error_log.
  destruct (File.closed (errorLog st)); simpl; [exact Hst|].
  apply (proj1 HP st); [repeat split|exact Hst].
Qed.

Ltac frontier_step :=
  lazymatch goal with
  | |- preserves _ (bind _ _) => apply preserves_bind; [|intros ?]
  | |- preserves _ (ret _) => apply preserves_ret
  | |- preserves _ (raise _) => apply preserves_raise
  | |- preserves _ (sys_exit _) => apply preserves_raise
  | |- preserves _ get => apply preserves_get
  | |- preserves _ (in_worker _) => apply preserves_in_worker
  | |- preserves _ (try_except _ _) =>
      apply preserves_try_except;
      [|let e := fresh "e" in
        let h := fresh "h" in
        let He := fresh "He" in
        intros e h He; destruct e; inversion He; subst; clear He]
  | |- preserves _ (output_call _) => apply frontier_modify; intros ?; repeat split
  | |- preserves _ (fuzzer_call _) => apply frontier_modify; intros ?; repeat split
  | |- preserves _ (modify _) => apply frontier_modify; intros ?; repeat split
  | |- preserves _ (lift (add_directory _)) => apply frontier_add_directory
  | |- preserves _ (lift (add_redirect_directory _)) => apply frontier_add_redirect_directory
  | |- preserves _ (reportManager_call _) => apply frontier_reportManager_call
  | |- preserves _ (reportManager_add_output _) => apply frontier_reportManager_add_output
  | |- preserves _ (append_error_log _ _ _) => apply frontier_append_error_log
  | |- preserves _ (let _ := _ in _) => cbv zeta
  | |- preserves _ (if ?b then _ else _) => destruct b
  | |- preserves _ (match ?x with _ => _ end) => destruct x
  end.

Ltac frontier := repeat frontier_step.

Ltac to_statement :=
  lazymatch goal with
  | Hst : ?Q ?st |- ?Q (snd (?m ?st)) => revert st Hst; change (preserves Q m)
  end.

Lemma frontier_match_callback (path : Path.t) : preserves P (match_callback path).
Proof.
  unfold match_callback. frontier.
  intros st Hst.
  destruct (Path.status path); [|exact Hst].
  destruct (_ && _ && _); [|exact Hst].
  destruct (existsb _ _); [exact Hst|].
  destruct (existsb _ _); [exact Hst|].
  to_statement. frontier.
Qed.

Lemma frontier_not_found_callback (path : string) :
  preserves P (not_found_callback path).
Proof. unfold not_found_callback. frontier. Qed.

Lemma frontier_error_callback (path errorMsg : string) :
  preserves P (error_callback path errorMsg).
Proof. unfold error_callback. frontier. Qed.

Lemma frontier_prompt_loop (keys : list Key) : preserves P (prompt_loop keys).
Proof. induction keys as [|key keys IH]; simpl; frontier. exact IH. Qed.

Lemma frontier_handle_interrupt (keys : list Key) : preserves P (handle_interrupt keys).
Proof. unfold handle_interrupt. frontier. apply frontier_prompt_loop. Qed.

Lemma frontier_process_paths (events : list FuzzEvent) :
  preserves P (process_paths events).
Proof.
  induction events as [|event events IH]; simpl; frontier;
    auto using frontier_match_callback, frontier_not_found_callback,
      frontier_error_callback, frontier_handle_interrupt.
Qed.

Lemma frontier_scan_next (run : DirRun) (st : Controller) (dir : string)
    (rest : list string) :
  directories st = dir :: rest ->
  P (with_currentDirectory dir (with_directories rest (with_index 0 st))) ->
  P (snd (scan_next run st)).
Proof.
  intros Hq Hst. unfold scan_next. rewrite Hq.
  rewrite !bind_modify.
  set (st0 := with_currentDirectory dir (with_directories rest (with_index 0 st))) in *.
  clearbody st0. to_statement. frontier. apply frontier_process_paths.
Qed.

End Frontier_invariants.

(** *** Properties of the done-set kept over a run *)

Section Done_set.
Context `{!BodyScan, !OS, !FileUtils}.

Variable Q : Settings -> list string -> Prop.
Hypothesis Q_push :
  forall (s : Settings) (done : list string) (entry : string),
    Q s done -> entry ∉ done -> Py.endswith entry "/" = true ->
    depth entry <= recursive_level_max s -> Q s (done ++ [entry]).

Lemma done_inv_frontier : frontier_property (done_inv Q).
Proof.
  split.
  - intros st st' (Hs & Hd & _) Hst. unfold done_inv. now rewrite Hs, Hd.
  - intros entry st Hst Hnew Hend Hdepth. unfold done_inv, pushed. simpl.
    now apply Q_push.
Qed.

Lemma done_modify (f : Controller -> Controller) :
  (forall st, settings (f st) = settings st /\ doneDirs (f st) = doneDirs st) ->
  preserves (done_inv Q) (modify f).
Proof.
  intros Hf st Hst. unfold modify, done_inv. simpl.
  destruct (Hf st) as [-> ->]. exact Hst.
Qed.

Lemma done_reportManager_call (call : ReportManager.call) :
  preserves (done_inv Q) (reportManager_call call).
Proof.
  intros st Hst. unfold reportManager_call. destruct (reportManager st); exact Hst.
Qed.

Lemma done_reportManager_add_output (r : Report) :
  preserves (done_inv Q) (reportManager_add_output r).
Proof.
  intros st Hst. unfold reportManager_add_output. destruct (reportManager st); exact Hst.
Qed.

Ltac done_step :=
  lazymatch goal with
  | |- preserves _ (bind _ _) => apply preserves_bind; [|intros ?]
  | |- preserves _ (ret _) => apply preserves_ret
  | |- preserves _ (raise _) => apply preserves_raise
  | |- preserves _ (sys_exit _) => apply preserves_raise
  | |- preserves _ get => apply preserves_get
  | |- preserves _ (try_except _ _) =>
      apply preserves_try_except;
      [|let e := fresh "e" in
        let h := fresh "h" in
        let He := fresh "He" in
        intros e h He; destruct e; inversion He; subst; clear He]
  | |- preserves _ (try_finally _ _) => apply preserves_try_finally
  | |- preserves _ (output_call _) => apply done_modify; intros ?; split; reflexivity
  | |- preserves _ (fuzzer_call _) => apply done_modify; intros ?; split; reflexivity
  | |- preserves _ (modify _) => apply done_modify; intros ?; split; reflexivity
  | |- preserves _ (process_paths _) => apply frontier_process_paths, done_inv_frontier
  | |- preserves _ (reportManager_call _) => apply done_reportManager_call
  | |- preserves _ (reportManager_add_output _) => apply done_reportManager_add_output
  | |- preserves _ (let _ := _ in _) => cbv zeta
  | |- preserves _ (if ?b then _ else _) => destruct b
  | |- preserves _ (match ?x with _ => _ end) => destruct x
  end.

Ltac done_all := repeat done_step.

Ltac to_statement :=
  lazymatch goal with
  | Hst : ?R ?st |- ?R (snd (?m ?st)) => revert st Hst; change (preserves R m)
  end.

Lemma done_scan_next (run : DirRun) : preserves (done_inv Q) (scan_next run).
Proof.
  intros st Hst. unfold scan_next.
  destruct (directories st) as [|dir rest]; [exact Hst|].
  to_statement. done_all.
Qed.

Lemma done_drain (turns : nat) : preserves (done_inv Q) (drain turns).
Proof. induction turns; simpl; done_all; auto using done_scan_next. Qed.

Lemma done_wait (runs : list DirRun) : preserves (done_inv Q) (wait runs).
Proof.
  induction runs as [|run runs IH]; intros st Hst; simpl;
    (destruct (queue_empty st); [exact Hst|]).
  - apply done_drain, Hst.
  - to_statement. done_all; auto using done_scan_next.
Qed.

Lemma done_seed_directories : preserves (done_inv Q) seed_directories.
Proof. intros st Hst. rewrite seed_directories_eq. exact Hst. Qed.

Lemma done_setup_reports (requester : Requester.t) (now : string) :
  preserves (done_inv Q) (setup_reports requester now).
Proof. unfold setup_reports. done_all. Qed.

Lemma done_prepare_target (target : Target) (url : string) :
  preserves (done_inv Q) (prepare_target target url).
Proof.
  unfold prepare_target. done_all;
    auto using done_seed_directories, done_setup_reports.
Qed.

Lemma done_scan_target (target : Target) (url : string) :
  preserves (done_inv Q) (scan_target target url).
Proof.
  unfold scan_target. done_all;
    auto using done_prepare_target, done_wait.
Qed.

Lemma done_target_iteration (target : Target) (url : string) :
  preserves (done_inv Q) (target_iteration target url).
Proof. unfold target_iteration. done_all. apply done_scan_target. Qed.

Lemma done_for_each_target (world : string -> Target) (urlList : list string) :
  preserves (done_inv Q) (for_each_target world urlList).
Proof.
  induction urlList as [|url urlList IH]; simpl; done_all;
    auto using done_target_iteration.
Qed.

Lemma done_run (world : string -> Target) : preserves (done_inv Q) (run world).
Proof.
  unfold run. done_all; try apply done_for_each_target.
  unfold close_errorLog. apply done_modify. intros st.
  destruct (negb _); split; reflexivity.
Qed.

End Done_set.

Section Queue_and_done_set.
Context `{!BodyScan, !OS, !FileUtils}.

Lemma grown_from_push (st : Controller) (s : Settings) (done : list string)
    (entry : string) :
  grown_from st s done -> entry ∉ done -> Py.endswith entry "/" = true ->
  depth entry <= recursive_level_max s -> grown_from st s (done ++ [entry]).
Proof.
  intros (-> & added & -> & Hnd & Hall) Hnew Hend Hdepth.
  split; [reflexivity|]. exists (added ++ [entry]).
  apply not_elem_of_app in Hnew as [Hold Hadded].
  split; [now rewrite app_assoc|]. split.
  - apply NoDup_app. split; [exact Hnd|]. split; [|apply NoDup_singleton].
    intros x Hx Hx'. apply list_elem_of_singleton in Hx'. now subst.
  - intros e He. apply elem_of_app in He as [He|He]; [now apply Hall|].
    apply list_elem_of_singleton in He. subst. auto.
Qed.

Lemma grown_from_start (st : Controller) : grown_from st st (doneDirs st).
Proof.
  split; [reflexivity|]. exists []. rewrite app_nil_r.
  split; [reflexivity|]. split; [constructor|]. intros e He. inversion He.
Qed.

(** X3.  Over a whole run, and over the scan of one frontier, the settings
    do not change and the done-set only grows at its end: the entries it
    gains are distinct, were not in it at the start, end with a slash and are
    not deeper than [recursive_level_max]. *)
Theorem done_set_grows_by_new_directories (world : string -> Target)
    (runs : list DirRun) (st : Controller) :
  grows_by_new_directories st (snd (run world st))
  /\ grows_by_new_directories st (snd (wait runs st)).
Proof.
  split.
  - exact (done_run (grown_from st) (grown_from_push st) world st (grown_from_start st)).
  - exact (done_wait (grown_from st) (grown_from_push st) runs st (grown_from_start st)).
Qed.

Lemma scanning_front_frontier (dir : string) (rest : list string) :
  frontier_property (scanning_front dir rest).
Proof.
  split.
  - intros st st' (_ & _ & Hq & Hd & _) [Hdir Hrest]. unfold scanning_front.
    now rewrite Hq, Hd.
  - intros entry st [Hdir [added Hq]] _ _ _. split; [exact Hdir|].
    exists (added ++ [entry]). unfold pushed. simpl. rewrite Hq. now rewrite app_assoc.
Qed.

(** X4.  The queue is first in, first out: one turn of the loop of [wait]
    on a queue [dir :: rest] scans [dir], and leaves [rest] on the queue in
    its order, followed by whatever entries that scan has pushed. *)
Theorem scan_next_takes_the_front (run : DirRun) (st : Controller) (dir : string)
    (rest : list string) :
  directories st = dir :: rest ->
  currentDirectory (snd (scan_next run st)) = dir
  /\ exists added, directories (snd (scan_next run st)) = rest ++ added.
Proof.
  intros Hq.
  apply (frontier_scan_next (scanning_front dir rest) (scanning_front_frontier dir rest)
           run st dir rest Hq).
  split; [reflexivity|]. exists []. simpl. now rewrite app_nil_r.
Qed.
End Queue_and_done_set.

(** ** Further properties of the operator prompt and of a fuzzer run *)

Section Operator_prompt.
Context `{!BodyScan, !OS, !FileUtils}.

Lemma prompt_loop_outcomes (keys : list Key) (st : Controller) :
  let '(r, st') := prompt_loop keys st in
  prompt_frame st st'
  /\ match r with
     | Return _ =>
         exit st' = exit st
         /\ (fuzzer st' = fuzzer st ++ [fuzzer_play]
             \/ (fuzzer st' = fuzzer st ++ [fuzzer_stop] /\ queue_empty st = false))
     | Raise KeyboardInterrupt =>
         (exit st' = true /\ fuzzer st' = fuzzer st ++ [fuzzer_stop])
         \/ (exit st' = exit st /\ fuzzer st' = fuzzer st)
     | Raise SkipTargetInterrupt =>
         exit st' = exit st /\ fuzzer st' = fuzzer st /\ several_targets st = true
     | Raise EOFError => exit st' = exit st /\ fuzzer st' = fuzzer st
     | Raise _ => False
     end.
Proof.
  revert st. induction keys as [|key keys IH]; intros st; simpl.
  - unfold bind, get, output_call, modify, raise. simpl.
    repeat split.
  - unfold bind at 1. unfold get at 1. cbv beta iota.
    unfold bind at 1. unfold output_call at 1. unfold modify at 1. cbv beta iota.
    fold (shown (out_in_line (prompt_message st)) st).
    destruct key as [option|]; [|repeat split; right; split; reflexivity].
    destruct (String.eqb (Py.lower option) "e").
    { unfold bind, modify, fuzzer_call, raise. simpl. repeat split. left. split; reflexivity. }
    destruct (String.eqb (Py.lower option) "c").
    { unfold fuzzer_call, modify. simpl. repeat split. left. reflexivity. }
    destruct (queue_empty st) eqn:Hq; simpl.
    + destruct (several_targets st && _) eqn:Hs.
      { apply andb_true_iff in Hs as [Hs _]. unfold raise. repeat split; auto. }
      specialize (IH (shown (out_in_line (prompt_message st)) st)).
      destruct (prompt_loop keys _) as [r st'].
      destruct IH as [((Hs1 & Hd & Hdirs & Hcd & Hurl) & Hi & Hrm & Hlog) Hr].
      split; [repeat split; assumption|].
      destruct r as [u|[]]; simpl in *; try exact Hr.
      destruct Hr as [He [Hf|[Hf Hq']]]; [auto|].
      change (queue_empty (shown _ st)) with (queue_empty st) in Hq'. congruence.
    + destruct (String.eqb (Py.lower option) "n").
      { unfold fuzzer_call, modify. simpl. repeat split. right. split; reflexivity. }
      destruct (several_targets st && _) eqn:Hs.
      { apply andb_true_iff in Hs as [Hs _]. unfold raise. repeat split; auto. }
      specialize (IH (shown (out_in_line (prompt_message st)) st)).
      destruct (prompt_loop keys _) as [r st'].
      destruct IH as [((Hs1 & Hd & Hdirs & Hcd & Hurl) & Hi & Hrm & Hlog) Hr].
      split; [repeat split; assumption|].
      destruct r as [u|[]]; simpl in *; try exact Hr.
      destruct Hr as [He [Hf|[Hf Hq']]]; auto.
Qed.

(** X6.  The outcomes of the operator prompt.  [handle_interrupt] leaves
    the frontier, the progress counter, the report manager and the error log
    as they are, and pauses the fuzzer first.  It returns only after
    [continue] (the fuzzer gets [play]) or after [next] while the queue is
    not empty (the fuzzer gets [stop]), with [exit] as it was; it raises
    [KeyboardInterrupt] only with [exit] set; it raises [SkipTargetInterrupt]
    only in a run with several targets; at the end of the input it raises
    [EOFError]; it raises nothing else. *)
Theorem operator_prompt_outcomes (keys : list Key) (st : Controller) :
  let '(r, st') := handle_interrupt keys st in
  prompt_frame st st'
  /\ match r with
     | Return _ =>
         exit st' = exit st
         /\ (fuzzer st' = fuzzer st ++ [fuzzer_pause; fuzzer_play]
             \/ (fuzzer st' = fuzzer st ++ [fuzzer_pause; fuzzer_stop]
                 /\ directories st <> []))
     | Raise KeyboardInterrupt =>
         exit st' = true
         /\ (fuzzer st' = fuzzer st ++ [fuzzer_pause; fuzzer_stop]
             \/ fuzzer st' = fuzzer st ++ [fuzzer_pause])
     | Raise SkipTargetInterrupt =>
         exit st' = exit st
         /\ fuzzer st' = fuzzer st ++ [fuzzer_pause]
         /\ several_targets st = true
     | Raise EOFError => exit st' = exit st /\ fuzzer st' = fuzzer st ++ [fuzzer_pause]
     | Raise _ => False
     end.
Proof.
  unfold handle_interrupt, bind, output_call, fuzzer_call, modify, try_except.
  set (st0 := with_fuzzer _ _).
  pose proof (prompt_loop_outcomes keys st0) as Hloop.
  destruct (prompt_loop keys st0) as [r st'].
  destruct Hloop as [((Hs1 & Hd & Hdirs & Hcd & Hurl) & Hi & Hrm & Hlog) Hr].
  subst st0. simpl in *.
  destruct r as [u|[]]; simpl in *; try contradiction.
  - split; [repeat split; assumption|].
    destruct Hr as [He [Hf|[Hf Hq]]]; split; auto.
    + left. rewrite Hf, <- app_assoc. reflexivity.
    + right. split; [rewrite Hf, <- app_assoc; reflexivity|].
      unfold queue_empty in Hq. simpl in Hq. destruct (directories st); congruence.
  - split; [repeat split; assumption|].
    destruct Hr as (He & Hf & Hs). repeat split; auto.
  - unfold raise. simpl. split; [repeat split; assumption|].
    split; [reflexivity|].
    destruct Hr as [[He Hf]|[He Hf]].
    + left. rewrite Hf, <- app_assoc. reflexivity.
    + right. exact Hf.
  - split; [repeat split; assumption|]. destruct Hr. split; auto.
Qed.

Lemma lower_char_lower (c : ascii) : Py.lower_char (Py.lower_char c) = Py.lower_char c.
Proof. destruct c as [[] [] [] [] [] [] [] []]; reflexivity. Qed.

Lemma lower_lower (s : string) : Py.lower (Py.lower s) = Py.lower s.
Proof. induction s as [|c s IH]; simpl; [reflexivity|]. now rewrite lower_char_lower, IH. Qed.

Lemma prompt_loop_lower (keys : list Key) (st : Controller) :
  prompt_loop (lower_keys keys) st = prompt_loop keys st.
Proof.
  revert st. induction keys as [|key keys IH]; intros st; [reflexivity|].
  simpl. unfold bind, get.
  destruct (output_call _ st) as [[u|e] st1]; [|reflexivity].
  destruct key as [option|]; [|reflexivity].
  rewrite lower_lower.
  repeat (destruct (_ : bool); try reflexivity).
  all: apply IH.
Qed.

(** X7.  The operator's answers are read without regard to case: the
    prompt behaves on any keys as on the same keys in lower case. *)
Theorem operator_answers_ignore_case (keys : list Key) (st : Controller) :
  handle_interrupt (lower_keys keys) st = handle_interrupt keys st.
Proof.
  unfold handle_interrupt, bind, try_except.
  destruct (output_call _ st) as [[u|e] st1]; [|reflexivity].
  destruct (fuzzer_call _ st1) as [[u'|e] st2]; [|reflexivity].
  now rewrite prompt_loop_lower.
Qed.
End Operator_prompt.

Section Fuzzer_run.
Context `{!BodyScan, !OS, !FileUtils}.

Lemma in_worker_state (callback : M unit) (st : Controller) :
  in_worker callback st = (Return tt, snd (callback st)).
Proof.
  unfold in_worker, try_except, ret. destruct (callback st) as [[[]|e] st']; reflexivity.
Qed.

Lemma expanded_index (path : Path.t) (st : Controller) :
  index (expanded path st) = index st.
Proof.
  unfold expanded.
  destruct (has_redirect _);
    [rewrite add_redirect_directory_cases | rewrite add_directory_cases];
    destruct (_ && _); reflexivity.
Qed.

Lemma match_callback_index (path : Path.t) (st : Controller) :
  index (snd (match_callback path st)) = index st + 1.
Proof.
  unfold match_callback. rewrite bind_modify. fold (counted st).
  destruct (Path.status path) as [status|]; [|reflexivity].
  destruct (_ && _ && _); [|reflexivity].
  destruct (existsb _ _); [reflexivity|].
  destruct (existsb _ _); [reflexivity|].
  pose proof (report_block path status (counted st)) as Hblock.
  cbv zeta in Hblock. rewrite Hblock. simpl.
  now rewrite expanded_index.
Qed.

(** X9.  A run without interrupt and without transport failure returns,
    whatever its callbacks raise, and moves the progress counter by the
    number of its results and misses; errors are not counted. *)
Theorem progress_counts_results_not_errors (events : list FuzzEvent) (st : Controller) :
  callbacks_only events = true ->
  fst (process_paths events st) = Return tt
  /\ index (snd (process_paths events st)) = index st + progress_of events.
Proof.
  revert st. unfold progress_of.
  induction events as [|event events IH]; intros st Honly; simpl in *.
  - split; [reflexivity | lia].
  - apply andb_true_iff in Honly as [Hevent Honly].
    destruct event as [path|path|path errorMsg now|keys|message]; try discriminate;
      unfold bind; rewrite !in_worker_state; simpl;
      match goal with |- context [process_paths events ?s] =>
        destruct (IH s Honly) as [Hr Hi] end;
      (split; [exact Hr|]); rewrite Hi.
    + rewrite match_callback_index. simpl length. lia.
    + simpl. lia.
    + unfold append_error_log, error_callback, output_call, modify. simpl.
      destruct (File.closed _); simpl; lia.
Qed.

Lemma queue_empty_nil (st : Controller) : queue_empty st = true -> directories st = [].
Proof. unfold queue_empty. destruct (directories st); [reflexivity|discriminate]. Qed.

Lemma scan_next_quiet (st : Controller) (dir : string) (rest : list string) :
  directories st = dir :: rest ->
  fst (scan_next quiet st) = Return tt
  /\ directories (snd (scan_next quiet st)) = rest.
Proof.
  intros Hq. unfold scan_next. rewrite Hq. split; reflexivity.
Qed.

Lemma drain_empties (turns : nat) (st : Controller) :
  length (directories st) = turns ->
  fst (drain turns st) = Return tt /\ directories (snd (drain turns st)) = [].
Proof.
  revert st. induction turns as [|turns IH]; intros st Hlen; simpl.
  - split; [reflexivity|]. now apply length_zero_iff_nil.
  - destruct (directories st) as [|dir rest] eqn:Hq; [discriminate|].
    destruct (scan_next_quiet st dir rest Hq) as [Hr Hrest].
    unfold bind. destruct (scan_next quiet st) as [r st1]. simpl in *. subst r.
    apply IH. rewrite Hrest. simpl in Hlen. lia.
Qed.

(** X10.  When [wait] returns, the queue is empty. *)
Theorem wait_returns_with_an_empty_queue (runs : list DirRun) (st : Controller) :
  fst (wait runs st) = Return tt -> directories (snd (wait runs st)) = [].
Proof.
  revert st. induction runs as [|run runs IH]; intros st; simpl.
  - destruct (queue_empty st) eqn:Hq; [intros _; now apply queue_empty_nil|].
    intros _. now apply drain_empties.
  - destruct (queue_empty st) eqn:Hq; [intros _; now apply queue_empty_nil|].
    unfold bind. destruct (scan_next run st) as [[u|e] st1]; simpl; [apply IH|discriminate].
Qed.
End Fuzzer_run.

(** ** The queue between targets, and the answers [c] and [n] *)

Section Between_targets.
Context `{!BodyScan, !OS, !FileUtils}.

Lemma setup_reports_frontier (requester : Requester.t) (now : string) (st0 : Controller) :
  preserves (same_frontier st0) (setup_reports requester now).
Proof.
  assert (Hmodify : forall f : Controller -> Controller,
             (forall st, same_frontier st (f st)) -> preserves (same_frontier st0) (modify f)).
  { intros f Hf st (Ha & Hb & Hc & Hd & He). destruct (Hf st) as (Ga & Gb & Gc & Gd & Ge).
    unfold modify. simpl. repeat split; congruence. }
  assert (Hadd : forall r, preserves (same_frontier st0) (reportManager_add_output r)).
  { intros r st Hst. unfold reportManager_add_output.
    destruct (reportManager st); exact Hst. }
  unfold setup_reports.
  repeat lazymatch goal with
         | |- preserves _ (bind _ _) => apply preserves_bind; [|intros ?]
         | |- preserves _ (ret _) => apply preserves_ret
         | |- preserves _ (sys_exit _) => apply preserves_raise
         | |- preserves _ get => apply preserves_get
         | |- preserves _ (output_call _) => apply Hmodify; intros ?; repeat split
         | |- preserves _ (modify _) => apply Hmodify; intros ?; repeat split
         | |- preserves _ (reportManager_add_output _) => apply Hadd
         | |- preserves _ (let _ := _ in _) => cbv zeta
         | |- preserves _ (if ?b then _ else _) => destruct b
         | |- preserves _ (match ?x with _ => _ end) => destruct x
         end.
Qed.

(** X5.  The queue and the done-set are not reset for a new target: when a
    target answers its first request, the statements before [self.wait()]
    put the seeds behind whatever the queue held before, so entries left
    over by a skipped target are scanned first on the next one. *)
Theorem queue_is_kept_between_targets (target : Target) (url : string) (st : Controller)
    (requester : Requester.t) :
  probe target = Connected requester ->
  directories (snd (prepare_target target url st)) = directories st ++ seeds (arguments st)
  /\ doneDirs (snd (prepare_target target url st)) = doneDirs st.
Proof.
  intros Hprobe.
  cut (same_frontier
         (with_directories (directories st ++ seeds (arguments st)) (with_currentUrl url st))
         (snd (prepare_target target url st))).
  { intros (_ & Hd & Hq & _). split; [exact Hq | exact Hd]. }
  unfold prepare_target. rewrite !bind_modify.
  unfold output_call at 1. rewrite bind_modify.
  unfold bind at 1, try_except. rewrite Hprobe.
  unfold bind at 1, modify at 1, ret at 1. cbv beta iota.
  rewrite bind_modify. unfold bind at 1. rewrite seed_directories_eq. cbv beta iota.
  match goal with |- context [bind (setup_reports _ _) _ ?s] => set (st1 := s) end.
  pose proof (setup_reports_frontier requester (now target) st1 st1) as Hs.
  unfold bind. unfold preserves in Hs.
  destruct (setup_reports requester (now target) st1) as [[[]|e] st2]; simpl in *;
    (destruct Hs as (Ha & Hb & Hc & Hd & He); [repeat split; reflexivity|]);
    repeat split; assumption.
Qed.

(** X8.  After the answer [c] the fuzzer is resumed and the rest of the run
    is processed; after the answer [n], given while the queue is not empty,
    the fuzzer is stopped and [process_paths] returns at once, whatever the
    rest of the run would have brought. *)
Theorem answers_next_and_continue (option : string) (keys : list Key)
    (events : list FuzzEvent) (st : Controller) :
  (Py.lower option = "c" ->
   process_paths (Interrupt (Line option :: keys) :: events) st
   = process_paths events (prompted fuzzer_play st))
  /\ (Py.lower option = "n" -> directories st <> [] ->
      process_paths (Interrupt (Line option :: keys) :: events) st
      = (Return tt, prompted fuzzer_stop st)).
Proof.
  split.
  - intros Hc. simpl. unfold handle_interrupt, try_except, bind, output_call, fuzzer_call,
      modify, get. simpl. unfold bind, get, output_call, fuzzer_call, modify. simpl.
    rewrite Hc. simpl. unfold stopped. simpl. rewrite last_snoc. f_equal.
    unfold prompted, shown, prompt_message, queue_empty, several_targets. simpl.
    rewrite <- app_assoc. reflexivity.
  - intros Hn Hq. simpl. unfold handle_interrupt, try_except, bind, output_call, fuzzer_call,
      modify, get. simpl. unfold bind, get, output_call, fuzzer_call, modify. simpl.
    rewrite Hn. simpl.
    destruct (directories st) as [|dir rest] eqn:Hdirs; [congruence|].
    unfold queue_empty. simpl. rewrite Hdirs. simpl.
    unfold stopped. simpl. rewrite last_snoc. unfold ret. f_equal.
    unfold prompted, shown, prompt_message, queue_empty, several_targets. simpl.
    rewrite Hdirs. rewrite <- app_assoc. reflexivity.
Qed.
End Between_targets.

(** ** Further properties of the report set-up *)

Section Report_setup.
Context `{!OS, !FileUtils}.

Lemma attach_explicit_reports (st0 st1 : Controller) (requester : Requester.t)
    (manager : ReportManager.t) :
  reportManager st1 = Some manager ->
  let '(r, st') :=
    bind
      (match Arguments.simpleOutputFile (arguments st0) with
       | Some file =>
           reportManager_add_output
             (SimpleReport (Requester.host requester) (Requester.port requester)
                (Requester.protocol requester) (Requester.basePath requester) file)
       | None => ret tt
       end)
      (fun _ =>
         bind
           (match Arguments.plainTextOutputFile (arguments st0) with
            | Some file =>
                reportManager_add_output
                  (PlainTextReport (Requester.host requester) (Requester.port requester)
                     (Requester.protocol requester) (Requester.basePath requester) file)
            | None => ret tt
            end)
           (fun _ =>
              match Arguments.jsonOutputFile (arguments st0) with
              | Some file =>
                  reportManager_add_output
                    (JSONReport (Requester.host requester) (Requester.port requester)
                       (Requester.protocol requester) (Requester.basePath requester) file)
              | None => ret tt
              end)) st1 in
  r = Return tt
  /\ reportManager st'
     = Some {| ReportManager.outputs :=
                 ReportManager.outputs manager ++ explicit_reports (arguments st0) requester;
               ReportManager.calls := ReportManager.calls manager |}
  /\ fs st' = fs st1 /\ output st' = output st1.
Proof.
  intros Hm. unfold explicit_reports, bind, ret, reportManager_add_output.
  destruct (Arguments.simpleOutputFile _), (Arguments.plainTextOutputFile _),
    (Arguments.jsonOutputFile _);
    simpl; rewrite ?Hm; simpl; rewrite ?Hm; simpl;
    (split; [reflexivity|]); (split; [|split; reflexivity]);
    unfold ReportManager.add_output; simpl; rewrite <- ?app_assoc, ?app_nil_r;
    try reflexivity; destruct manager; reflexivity.
Qed.


(** X12.  With [autoSave], whenever [setup_reports] returns it has
    attached, before the reports for the output files named on the command
    line, one automatic report: a JSON report for the format [json] and a
    plain-text report for any other format.  The file of that report did not
    exist before, and its directory (the batch directory in a batch run, else
    [reports/<host>] under the save path) exists and can be written. *)
Theorem autosave_report_on_a_free_file (st : Controller) (requester : Requester.t)
    (now : string) :
  Arguments.autoSave (arguments st) = true ->
  fst (setup_reports requester now st) = Return tt ->
  let st' := snd (setup_reports requester now st) in
  exists manager outputFile,
    reportManager st = Some manager
    /\ reportManager st'
       = Some {| ReportManager.outputs :=
                   ReportManager.outputs manager
                   ++ autosave_report (Arguments.autoSaveFormat (arguments st))
                        requester outputFile
                      :: explicit_reports (arguments st) requester;
                 ReportManager.calls := ReportManager.calls manager |}
    /\ exists_ (fs st) outputFile = false
    /\ exists_ (fs st') (autosave_directory st requester) = true
    /\ can_write (fs st') (autosave_directory st requester) = true.
Proof.
  intros Hauto. cbv zeta.
  destruct (setup_reports requester now st) as [r st'] eqn:E. simpl.
  intros ->. revert E. unfold setup_reports.
  change (bind get ?k st) with (k st st). cbv beta. rewrite Hauto.
  unfold bind at 1.
  match goal with |- context [let (_, _) := ?auto st in _] =>
    destruct (auto st) as [[[]|e] st1] eqn:HA end; [|discriminate].
  assert (Hst1 : exists manager outputFile,
             reportManager st = Some manager
             /\ reportManager st1
                = Some (ReportManager.add_output
                          (autosave_report (Arguments.autoSaveFormat (arguments st))
                             requester outputFile) manager)
             /\ exists_ (fs st) outputFile = false
             /\ exists_ (fs st1) (autosave_directory st requester) = true
             /\ can_write (fs st1) (autosave_directory st requester) = true).
  { revert HA. unfold autosave_directory, autosave_report.
    destruct (batch st);
      (match goal with
       | |- context [exists_ (fs st) (build_path [?d; ?f])] =>
           set (outputFile := build_path [d; f]);
           pose proof (free_index_is_free (fs st) outputFile) as Hfree
       end);
      (destruct (exists_ (fs st) outputFile) eqn:Hfile);
      unfold bind, get, ret, modify, sys_exit, raise, output_call,
        reportManager_add_output;
      (match goal with
       | |- context [negb (exists_ (fs st) ?d)] =>
           destruct (exists_ (fs st) d) eqn:Hdir
       end); simpl;
      rewrite ?Hdir; simpl;
      try (destruct (exists_ (create_directory _ _) _) eqn:Hmade; simpl;
           [|discriminate]);
      (destruct (can_write _ _) eqn:Hwrite; simpl; [|discriminate]);
      (destruct (reportManager st) as [manager|] eqn:Hm; [|discriminate]);
      intros [= <-]; simpl; eexists manager, _;
      (split; [reflexivity|]); (split; [reflexivity|]); auto. }
  destruct Hst1 as (manager & outputFile & Hm & Hm1 & Hfree & Hdir & Hwrite).
  pose proof (attach_explicit_reports st st1 requester _ Hm1) as Htail.
  destruct (bind _ _ st1) as [r st2].
  destruct Htail as (_ & Hrm & Hfs & _).
  intros [= _ <-].
  exists manager, outputFile. rewrite Hfs.
  split; [exact Hm|]. split; [|auto].
  rewrite Hrm. simpl. now rewrite <- app_assoc.
Qed.

(** X13.  With [autoSave], [setup_reports] ends the process only with the
    exit code 1, after one error message, with the report manager as it was,
    and only when the directory of the automatic report does not exist after
    the attempt to create it or cannot be written. *)
Theorem autosave_failure_ends_the_process (st : Controller) (requester : Requester.t)
    (now : string) (code : Z) :
  Arguments.autoSave (arguments st) = true ->
  fst (setup_reports requester now st) = Raise (SystemExit code) ->
  let st' := snd (setup_reports requester now st) in
  code = 1
  /\ reportManager st' = reportManager st
  /\ (exists message, output st' = output st ++ [out_error message])
  /\ (exists_ (fs st') (autosave_directory st requester) = false
      \/ can_write (fs st') (autosave_directory st requester) = false).
Proof.
  intros Hauto. cbv zeta.
  destruct (setup_reports requester now st) as [r st'] eqn:E. simpl.
  intros ->. revert E. unfold setup_reports.
  change (bind get ?k st) with (k st st). cbv beta. rewrite Hauto.
  unfold bind at 1.
  match goal with |- context [let (_, _) := ?auto st in _] =>
    destruct (auto st) as [[[]|e] st1] eqn:HA end.
  - (* the automatic part returned: the explicit reports cannot exit *)
    assert (Hm1 : exists manager, reportManager st1 = Some manager).
    { revert HA.
      destruct (if batch st then _ else _) as [fileName directoryPath].
      unfold bind, get, ret, modify, sys_exit, raise, output_call,
        reportManager_add_output.
      destruct (exists_ (fs st) directoryPath); simpl.
      - destruct (can_write _ _); simpl; [|discriminate].
        destruct (reportManager st); [|discriminate]. intros [= <-]. simpl. eauto.
      - destruct (exists_ (create_directory _ _) _); simpl; [|discriminate].
        destruct (can_write _ _); simpl; [|discriminate].
        destruct (reportManager st); [|discriminate]. intros [= <-]. simpl. eauto. }
    destruct Hm1 as [manager Hm1].
    pose proof (attach_explicit_reports st st1 requester _ Hm1) as Htail.
    destruct (bind _ _ st1) as [r st2].
    destruct Htail as (-> & _). discriminate.
  - intros [= -> <-]. revert HA. unfold autosave_directory.
    destruct (batch st);
      unfold bind, get, ret, modify, sys_exit, raise, output_call,
        reportManager_add_output;
      (match goal with
       | |- context [negb (exists_ (fs st) ?d)] =>
           destruct (exists_ (fs st) d) eqn:Hdir
       end); simpl;
      rewrite ?Hdir; simpl;
      try (destruct (exists_ (create_directory _ _) _) eqn:Hmade; simpl);
      try (destruct (can_write _ _) eqn:Hwrite; simpl);
      try (destruct (reportManager st) as [manager|] eqn:Hm);
      (intros [= <- <-] || intros [= <-] || discriminate); simpl;
      repeat split; eauto.
Qed.
End Report_setup.

(** ** How a run ends *)

Section Run_outcomes.
Context `{!BodyScan, !OS, !FileUtils}.

Lemma raises_in_worker (allowed : exn -> Prop) (callback : M unit) :
  raises_only allowed (in_worker callback).
Proof.
  intros st e. unfold in_worker, try_except, ret.
  destruct (callback st) as [[[]|e'] st']; discriminate.
Qed.

Lemma handle_interrupt_raises (keys : list Key) :
  raises_only from_prompt (handle_interrupt keys).
Proof.
  intros st e. unfold handle_interrupt, bind, output_call, fuzzer_call, modify, try_except.
  set (st0 := with_fuzzer _ _).
  pose proof (prompt_loop_outcomes keys st0) as Hloop.
  destruct (prompt_loop keys st0) as [r st'].
  destruct Hloop as [_ Hr]. unfold from_prompt.
  destruct r as [u|[]]; simpl in *; try contradiction; intros [= <-]; auto.
Qed.

Lemma process_paths_raises (events : list FuzzEvent) :
  raises_only from_scan (process_paths events).
Proof.
  induction events as [|event events IH]; simpl.
  - apply raises_ret.
  - destruct event as [path|path|path errorMsg now|keys|message].
    + apply raises_bind; [apply raises_in_worker | intros _; exact IH].
    + apply raises_bind; [apply raises_in_worker | intros _; exact IH].
    + apply raises_bind; [apply raises_in_worker | intros _].
      apply raises_bind; [apply raises_in_worker | intros _; exact IH].
    + apply raises_bind.
      * eapply raises_weaken; [|apply handle_interrupt_raises]. intros e He. now left.
      * intros _. apply raises_bind; [apply raises_get|intros st].
        destruct (stopped st); [apply raises_ret | exact IH].
    + apply raises_raise. right. eauto.
Qed.

Lemma scan_next_raises (run : DirRun) : raises_only from_scan (scan_next run).
Proof.
  intros st. unfold scan_next. destruct (directories st) as [|dir rest]; [discriminate|].
  revert st.
  match goal with |- forall st e, fst (?m st) = _ -> _ => change (raises_only from_scan m) end.
  repeat (apply raises_bind;
          [first [apply raises_modify | apply raises_get]|intros ?]).
  apply process_paths_raises.
Qed.

Lemma drain_raises (turns : nat) : raises_only from_scan (drain turns).
Proof.
  induction turns as [|turns IH]; simpl; [apply raises_ret|].
  apply raises_bind; [apply scan_next_raises | intros _; exact IH].
Qed.

Lemma wait_raises (runs : list DirRun) : raises_only from_scan (wait runs).
Proof.
  induction runs as [|run runs IH]; intros st e; simpl.
  - destruct (queue_empty st); [discriminate | apply drain_raises].
  - destruct (queue_empty st); [discriminate|].
    revert e. apply raises_bind; [apply scan_next_raises | intros _; exact IH].
Qed.

(** With a report manager in place, setting up the reports fails only by
    ending the process. *)
Lemma setup_reports_with_manager (requester : Requester.t) (now : string)
    (st : Controller) (e : exn) :
  is_Some (reportManager st) -> fst (setup_reports requester now st) = Raise e -> e = SystemExit 1.
Proof.
  intros Hm He.
  destruct (setup_reports_raises requester now st e He) as [->| ->]; [reflexivity|].
  exfalso. revert He. unfold setup_reports.
  change (bind get ?k st) with (k st st). cbv beta.
  unfold bind at 1.
  match goal with |- context [let (_, _) := ?auto st in _] =>
    destruct (auto st) as [[[]|e] st1] eqn:HA end.
  - assert (Hm1 : is_Some (reportManager st1)).
    { revert HA. destruct (Arguments.autoSave _); [|intros [= <-]; exact Hm].
      destruct (if batch st then _ else _) as [fileName directoryPath].
      destruct Hm as [manager Hm].
      unfold bind, get, ret, modify, sys_exit, raise, output_call,
        reportManager_add_output.
      destruct (exists_ (fs st) directoryPath); simpl.
      - destruct (can_write _ _); simpl; [|discriminate].
        rewrite Hm. intros [= <-]. eexists. reflexivity.
      - destruct (exists_ (create_directory _ _) _); simpl; [|discriminate].
        destruct (can_write _ _); simpl; [|discriminate].
        rewrite Hm. intros [= <-]. eexists. reflexivity. }
    destruct Hm1 as [manager Hm1].
    pose proof (attach_explicit_reports st st1 requester _ Hm1) as Htail.
    destruct (bind _ _ st1) as [r st2].
    destruct Htail as (-> & _). discriminate.
  - simpl. intros [= ->]. revert HA.
    destruct (Arguments.autoSave _); [|discriminate].
    destruct (if batch st then _ else _) as [fileName directoryPath].
    destruct Hm as [manager Hm].
    unfold bind, get, ret, modify, sys_exit, raise, output_call,
      reportManager_add_output.
    destruct (exists_ (fs st) directoryPath); simpl.
    + destruct (can_write _ _); simpl; [|discriminate].
      rewrite Hm. discriminate.
    + destruct (exists_ (create_directory _ _) _); simpl; [|discriminate].
      destruct (can_write _ _); simpl; [|discriminate].
      rewrite Hm. discriminate.
Qed.

Lemma prepare_target_exits (target : Target) (url : string) (st : Controller) (e : exn) :
  fst (prepare_target target url st) = Raise e -> from_target e.
Proof.
  unfold prepare_target. rewrite bind_modify.
  assert (Hm : is_Some (reportManager (with_reportManager (Some ReportManager.new) st)))
    by (eexists; reflexivity).
  set (st0 := with_reportManager (Some ReportManager.new) st) in *. clearbody st0.
  rewrite bind_modify.
  assert (Hm1 : is_Some (reportManager (with_currentUrl url st0))) by exact Hm.
  set (st1 := with_currentUrl url st0) in *. clearbody st1. clear Hm st0.
  unfold output_call at 1. rewrite bind_modify.
  match goal with |- context [bind _ _ ?s] =>
    assert (Hm2 : is_Some (reportManager s)) by exact Hm1; set (st2 := s) in *; clearbody st2 end.
  clear Hm1 st1.
  unfold bind at 1, try_except. unfold from_target.
  destruct (probe target) as [requester|message|].
  - unfold bind at 1, modify at 1, ret at 1. cbv beta iota.
    rewrite bind_modify.
    unfold bind at 1. rewrite seed_directories_eq. cbv beta iota.
    match goal with |- context [bind (setup_reports _ _) _ ?s] =>
      assert (Hm3 : is_Some (reportManager s)) by exact Hm2; set (st3 := s) in *; clearbody st3 end.
    unfold bind at 1.
    pose proof (setup_reports_with_manager requester (now target) st3) as Hs.
    destruct (setup_reports requester (now target) st3) as [[[]|e'] st4]; simpl in *.
    + discriminate.
    + intros [= <-]. rewrite (Hs e' Hm3 eq_refl). auto.
  - simpl. intros [= <-]. auto.
  - simpl. intros [= <-]. auto.
Qed.

Lemma scan_target_exits (target : Target) (url : string) (st : Controller) (e : exn) :
  fst (scan_target target url st) = Raise e -> from_target e.
Proof.
  unfold scan_target, bind.
  pose proof (prepare_target_exits target url st) as Hp.
  destruct (prepare_target target url st) as [[requester|e'] st1]; simpl in *;
    [|intros [= <-]; now apply Hp].
  unfold try_except. pose proof (wait_raises (runs target) st1) as Hw.
  destruct (wait (runs target) st1) as [[[]|e'] st2]; simpl in *; [discriminate|].
  specialize (Hw e' eq_refl). unfold from_target.
  destruct Hw as [[->|[->| ->]]|[message ->]]; simpl; intros [= <-]; auto.
Qed.

Lemma target_iteration_exits (target : Target) (url : string) (st : Controller) (e : exn) :
  fst (target_iteration target url st) = Raise e -> from_loop e.
Proof.
  destruct (target_iteration_unfold target url st) as (manager & st1 & _ & _ & ->).
  simpl. pose proof (scan_target_exits target url st) as Hs.
  destruct (fst (scan_target target url st)) as [u|e']; [discriminate|].
  specialize (Hs e' eq_refl). unfold from_loop.
  destruct Hs as [->|[->|[->| ->]]]; intros [= <-]; auto.
Qed.

Lemma target_iteration_manager (target : Target) (url : string) (st : Controller) :
  is_Some (reportManager (snd (target_iteration target url st))).
Proof.
  destruct (target_iteration_unfold target url st) as (manager & st1 & _ & _ & ->).
  eexists. reflexivity.
Qed.
Lemma for_each_target_exits (world : string -> Target) (urlList : list string)
    (st : Controller) (e : exn) :
  fst (for_each_target world urlList st) = Raise e -> from_loop e.
Proof.
  revert st. induction urlList as [|url urlList IH]; intros st; simpl; [discriminate|].
  unfold bind. pose proof (target_iteration_exits (world url) url st) as Hi.
  destruct (target_iteration (world url) url st) as [[[]|e'] st1]; simpl in *.
  - apply IH.
  - intros [= <-]. now apply Hi.
Qed.

Lemma for_each_target_manager (world : string -> Target) (urlList : list string)
    (st : Controller) :
  is_Some (reportManager st) \/ urlList <> [] ->
  is_Some (reportManager (snd (for_each_target world urlList st))).
Proof.
  revert st. induction urlList as [|url urlList IH]; intros st Hm; simpl.
  - destruct Hm as [Hm|Hm]; [exact Hm | congruence].
  - unfold bind. pose proof (target_iteration_manager (world url) url st) as Hi.
    destruct (target_iteration (world url) url st) as [[[]|e'] st1]; simpl in *.
    + apply IH. now left.
    + exact Hi.
Qed.

(** X14.  A run over at least one target ends in one of four ways: it
    returns, and its last message is [Task Completed]; it ends the process
    with the code 0, and its last message is [Canceled by the user]; it ends
    the process with the code 1; or it raises [EOFError].  No
    [KeyboardInterrupt], [SkipTargetInterrupt] or [RequestException] leaves
    it.  In every case the last call on the report manager is [close]. *)
Theorem run_ends_in_one_of_four_ways (world : string -> Target) (st : Controller) :
  Arguments.urlList (arguments st) <> [] ->
  let final := snd (run world st) in
  (exists manager,
      reportManager final = Some manager
      /\ last (ReportManager.calls manager) = Some ReportManager.close)
  /\ match fst (run world st) with
     | Return _ => last (output final) = Some (out_warning (String "010" "Task Completed"))
     | Raise e =>
         (e = SystemExit 0
          /\ last (output final) = Some (out_error (String "010" "Canceled by the user")))
         \/ e = SystemExit 1
         \/ e = EOFError
     end.
Proof.
  intros Hurls. cbv zeta.
  pose proof (for_each_target_exits world (Arguments.urlList (arguments st)) st) as He.
  pose proof (for_each_target_manager world (Arguments.urlList (arguments st)) st
                (or_intror Hurls)) as Hm.
  destruct (run world st) as [r final] eqn:Hrun. simpl. revert Hrun.
  unfold run, bind at 1, try_finally, try_except.
  change (bind get ?k st) with (k st st). cbv beta.
  destruct (for_each_target world _ st) as [[[]|e] st1]; simpl in *.
  - destruct Hm as [manager Hm].
    unfold bind, close_errorLog, modify, reportManager_call, output_call.
    destruct (File.closed (errorLog st1)); simpl; rewrite Hm; simpl;
      intros [= <- <-]; simpl;
      (split; [eexists; split; [reflexivity|apply last_snoc] | apply last_snoc]).
  - specialize (He e eq_refl). destruct Hm as [manager Hm].
    destruct He as [->|[->| ->]];
      unfold bind, close_errorLog, modify, reportManager_call, output_call, sys_exit, raise;
      simpl; destruct (File.closed (errorLog st1)); simpl; rewrite Hm; simpl;
      intros [= <- <-]; simpl;
      (split; [eexists; split; [reflexivity|apply last_snoc] | ]); auto.
    all: left; split; [reflexivity | apply last_snoc].
Qed.

(** X15.  A run whose list of targets is empty raises [AttributeError]:
    no report manager was ever created when the outer [finally] calls
    [self.reportManager.close()].  The error log has been closed by then, and
    nothing has been printed, [Task Completed] included. *)
Theorem run_without_targets (world : string -> Target) (script_path : string)
    (arguments : Arguments.t) (blacklists : gmap Z (list string)) (dictionary : nat)
    (batchSession : string) (fs0 : FS) :
  Arguments.urlList arguments = [] ->
  let st := new_controller script_path arguments blacklists dictionary batchSession fs0 in
  run world st = (Raise AttributeError, with_errorLog (File.close File.open) st).
Proof.
  intros Hurls. cbv zeta. unfold run, bind at 1, try_finally, try_except.
  change (bind get ?k ?s) with (k s s). cbv beta. simpl Arguments.urlList.
  rewrite Hurls. reflexivity.
Qed.
End Run_outcomes.

(** ** The black lists *)

Section Blacklist_files.
Context `{!FileUtils, !FileReader}.

Lemma read_lines (status : Z) (lines : list string) (blacklists : gmap Z (list string))
    (blacklist : list string) :
  blacklists !! status = Some blacklist ->
  fold_left
    (fun (blacklists : gmap Z (list string)) (line : string) =>
       if is_comment line then blacklists
       else alter (fun blacklist => blacklist ++ [line]) status blacklists)
    lines blacklists
  = <[status := blacklist ++ List.filter (fun line => negb (is_comment line)) lines]>
      blacklists.
Proof.
  revert blacklists blacklist. induction lines as [|line lines IH];
    intros blacklists blacklist Hb; cbn [fold_left List.filter].
  - rewrite app_nil_r. symmetry. now apply insert_id.
  - destruct (is_comment line); cbn [negb].
    + now apply IH.
    + rewrite (IH _ (blacklist ++ [line])).
      * rewrite <- app_assoc. cbn [app].
        apply map_eq. intros k. destruct (decide (k = status)) as [->|Hk].
        -- now rewrite !lookup_insert_eq.
        -- rewrite !lookup_insert_ne by congruence. now rewrite lookup_alter_ne by congruence.
      * rewrite lookup_alter_eq, Hb. reflexivity.
Qed.

Lemma lookup_after_reading (script_path : string) (fs0 : FS) (status : Z) :
  get_blacklists script_path fs0 !! status
  = if bool_decide (status ∈ [400; 403; 500])
       && can_read fs0 (blacklist_file script_path status)
    then Some (List.filter (fun line => negb (is_comment line))
                 (get_lines fs0 (blacklist_file script_path status)))
    else None.
Proof.
  unfold get_blacklists. cbn [fold_left]. cbv zeta.
  fold (blacklist_file script_path 400).
  fold (blacklist_file script_path 403). fold (blacklist_file script_path 500).
  change (fun (blacklists : gmap Z (list string)) (line : string) =>
            if Py.startswith (lstrip line) "#" then blacklists
            else alter (fun blacklist => blacklist ++ [line]) ?s blacklists)
    with (fun (blacklists : gmap Z (list string)) (line : string) =>
            if is_comment line then blacklists
            else alter (fun blacklist => blacklist ++ [line]) s blacklists).
  repeat match goal with
         | |- context [fold_left _ (get_lines fs0 ?f) (<[?s := []]> ?m)] =>
             rewrite (read_lines s (get_lines fs0 f) (<[s := []]> m) [])
               by apply lookup_insert_eq
         end.
  cbn [app].
  destruct (decide (status = 400)) as [->|H400];
    [|destruct (decide (status = 403)) as [->|H403];
      [|destruct (decide (status = 500)) as [->|H500]]].
  4: { rewrite bool_decide_eq_false_2
         by (rewrite !elem_of_cons, elem_of_nil; intuition congruence).
       simpl.
       destruct (can_read fs0 (blacklist_file script_path 400)),
         (can_read fs0 (blacklist_file script_path 403)),
         (can_read fs0 (blacklist_file script_path 500)); simpl;
         rewrite ?insert_insert_eq, ?lookup_insert_ne by congruence; apply lookup_empty. }
  all: rewrite bool_decide_eq_true_2 by (rewrite !elem_of_cons; auto); simpl.
  all: destruct (can_read fs0 (blacklist_file script_path 400)),
         (can_read fs0 (blacklist_file script_path 403)),
         (can_read fs0 (blacklist_file script_path 500)); simpl;
         rewrite ?insert_insert_eq;
         repeat first [ rewrite lookup_insert_eq | rewrite lookup_insert_ne by lia ];
         try reflexivity; apply lookup_empty.
Qed.

(** X16.  The black lists [get_blacklists] returns: a status has a list
    exactly when it is 400, 403 or 500 and its file can be read, and the
    list holds the lines of that file as they are and in their order, except
    those whose first character after leading white space is [#]. *)
Theorem get_blacklists_lookup (script_path : string) (fs0 : FS) (status : Z) :
  (forall blacklist,
      get_blacklists script_path fs0 !! status = Some blacklist
      <-> status ∈ [400; 403; 500]
          /\ can_read fs0 (blacklist_file script_path status) = true
          /\ blacklist
             = List.filter (fun line => negb (is_comment line))
                 (get_lines fs0 (blacklist_file script_path status)))
  /\ (get_blacklists script_path fs0 !! status = None
      <-> (status ∉ [400; 403; 500])
          \/ can_read fs0 (blacklist_file script_path status) = false).
Proof.
  rewrite lookup_after_reading.
  destruct (bool_decide_reflect (status ∈ [400; 403; 500])) as [Hk|Hk];
    destruct (can_read fs0 (blacklist_file script_path status)); simpl.
  - split.
    + intros blacklist. split.
      * intros [= <-]. auto.
      * intros (_ & _ & ->). reflexivity.
    + split; [discriminate|]. intros [Hnot|[=]]. contradiction.
  - split.
    + intros blacklist. split; [discriminate|]. intros (_ & [=] & _).
    + split; auto.
  - split.
    + intros blacklist. split; [discriminate|]. intros (Hin & _). contradiction.
    + split; auto.
  - split.
    + intros blacklist. split; [discriminate|]. intros (Hin & _). contradiction.
    + split; auto.
Qed.

Lemma filter_elem_of (f : string -> bool) (lines : list string) (line : string) :
  line ∈ List.filter f lines <-> line ∈ lines /\ f line = true.
Proof. rewrite !list_elem_of_In. apply filter_In. Qed.

(** X17.  On a controller whose black lists were read by
    [get_blacklists], a result is black-listed exactly when its status is
    400, 403 or 500, the file of that status can be read, and the result's
    path is a line of that file that is not a comment; and a black-listed
    result only moves the progress counter: it is not printed, not reported
    and not used to expand the frontier. *)
Theorem blacklisted_results `{!BodyScan, !OS} (script_path : string) (fs0 : FS)
    (st : Controller) (path : Path.t) :
  blacklists st = get_blacklists script_path fs0 ->
  (blacklisted st path
   <-> exists status,
         Path.status path = Some status
         /\ status ∈ [400; 403; 500]
         /\ can_read fs0 (blacklist_file script_path status) = true
         /\ Path.path path ∈ get_lines fs0 (blacklist_file script_path status)
         /\ is_comment (Path.path path) = false)
  /\ (blacklisted st path -> match_callback path st = (Return tt, counted st)).
Proof.
  intros Hb. split.
  - unfold blacklisted. rewrite Hb. split.
    + intros (status & blacklist & Hs & Hl & Hin). exists status.
      rewrite lookup_after_reading in Hl.
      destruct (bool_decide (status ∈ [400; 403; 500])) eqn:Hk; [|discriminate].
      apply bool_decide_eq_true in Hk.
      destruct (can_read fs0 _) eqn:Hr; [|discriminate].
      simpl in Hl. injection Hl as <-. apply filter_elem_of in Hin as [Hin Hc].
      apply negb_true_iff in Hc. auto.
    + intros (status & Hs & Hk & Hr & Hin & Hc).
      exists status, (List.filter (fun line => negb (is_comment line))
                        (get_lines fs0 (blacklist_file script_path status))).
      split; [exact Hs|]. split.
      * rewrite lookup_after_reading, bool_decide_eq_true_2, Hr by exact Hk. reflexivity.
      * apply filter_elem_of. split; [exact Hin|]. now rewrite Hc.
  - intros (status & blacklist & Hs & Hl & Hin).
    unfold match_callback. rewrite bind_modify. fold (counted st). rewrite Hs.
    change (blacklists (counted st)) with (blacklists st). rewrite Hl.
    rewrite (bool_decide_eq_true_2 _ Hin). simpl. rewrite andb_false_r. reflexivity.
Qed.
End Blacklist_files.

(** ** The error log of a fuzzer run *)

Section Error_log.
Context `{!BodyScan, !OS, !FileUtils}.

Lemma expanded_log (path : Path.t) (st : Controller) :
  errorLog (expanded path st) = errorLog st /\ currentUrl (expanded path st) = currentUrl st.
Proof.
  unfold expanded.
  destruct (has_redirect _);
    [rewrite add_redirect_directory_cases | rewrite add_directory_cases];
    destruct (_ && _); split; reflexivity.
Qed.

Lemma match_callback_log (path : Path.t) (st : Controller) :
  errorLog (snd (match_callback path st)) = errorLog st
  /\ currentUrl (snd (match_callback path st)) = currentUrl st.
Proof.
  unfold match_callback. rewrite bind_modify. fold (counted st).
  destruct (Path.status path) as [status|]; [|split; reflexivity].
  destruct (_ && _ && _); [|split; reflexivity].
  destruct (existsb _ _); [split; reflexivity|].
  destruct (existsb _ _); [split; reflexivity|].
  pose proof (report_block path status (counted st)) as Hblock.
  cbv zeta in Hblock. rewrite Hblock. simpl.
  exact (expanded_log path (shown _ (counted st))).
Qed.

(** X19.  The error log after a run without interrupt and without
    transport failure: while the log is open, every error of the run has
    added one line to it, in the order of the errors, made of the line
    separator, the time stamp, the current URL, the path and the message;
    results and misses add nothing.  A closed log stays as it is, and no run
    closes the log. *)
Theorem error_log_of_a_run (events : list FuzzEvent) (st : Controller) :
  callbacks_only events = true ->
  let log := errorLog (snd (process_paths events st)) in
  File.written log
  = File.written (errorLog st)
    ++ (if File.closed (errorLog st) then [] else error_lines (currentUrl st) events)
  /\ File.closed log = File.closed (errorLog st)
  /\ File.close_calls log = File.close_calls (errorLog st).
Proof.
  cbv zeta. revert st.
  induction events as [|event events IH]; intros st Honly; simpl in *.
  - destruct (File.closed _); rewrite ?app_nil_r; auto.
  - apply andb_true_iff in Honly as [Hevent Honly].
    destruct event as [path|path|path errorMsg now|keys|message]; try discriminate;
      unfold bind; rewrite !in_worker_state; simpl;
      match goal with |- context [process_paths events ?s] =>
        destruct (IH s Honly) as (Hw & Hc & Hn) end;
      rewrite Hw, Hc, Hn.
    + destruct (match_callback_log path st) as [-> ->]. auto.
    + simpl. auto.
    + unfold append_error_log, error_callback, output_call, modify. simpl.
      destruct (File.closed (errorLog st)) eqn:Hclosed; simpl; rewrite ?Hclosed; simpl;
        [auto|].
      rewrite <- app_assoc. auto.
Qed.
End Error_log.

(** ** The batch directory *)

Section Batch_reports.
Context `{!FileUtils, !FileWriter}.

(** X18.  [setup_batch_reports] marks the run as a batch run and names the
    batch directory [reports/BATCH-<time>] under the save path; besides
    that it changes only the file system and the output.  It returns only
    when that directory exists, after being created if it did not, and can
    be written; it has then printed nothing and has written the list of
    targets to [TARGETS.txt] in it.  Otherwise it ends the process with the
    exit code 1 after one error message, the directory being absent or not
    writable. *)
Theorem batch_reports_outcomes (now : string) (st : Controller) :
  let '(r, st') := setup_batch_reports now st in
  let dir := batch_directory st now in
  st' = with_output (output st') (with_fs (fs st')
          (with_batchDirectoryPath dir (with_batch true st)))
  /\ match r with
     | Return _ =>
         output st' = output st
         /\ exists fs1,
              (fs1 = fs st \/ (exists_ (fs st) dir = false /\ fs1 = create_directory (fs st) dir))
              /\ exists_ fs1 dir = true
              /\ can_write fs1 dir = true
              /\ fs st'
                 = write_lines (create_directory fs1 dir)
                     (build_path [dir; "TARGETS.txt"]) (Arguments.urlList (arguments st))
     | Raise e =>
         e = SystemExit 1
         /\ (exists message, output st' = output st ++ [out_error message])
         /\ (exists_ (fs st') dir = false \/ can_write (fs st') dir = false)
     end.
Proof.
  unfold setup_batch_reports, batch_directory. rewrite !bind_modify. cbv zeta.
  change (bind get ?k ?s) with (k s s). cbv beta.
  unfold bind, get, ret, modify, output_call, sys_exit, raise. simpl.
  destruct (exists_ (fs st) _) eqn:Hdir; simpl.
  - destruct (can_write (fs st) _) eqn:Hwrite; simpl.
    + split; [reflexivity|]. split; [reflexivity|].
      exists (fs st). auto.
    + split; [reflexivity|]. split; [reflexivity|]. split; [eauto|]. auto.
  - destruct (exists_ (create_directory _ _) _) eqn:Hmade; simpl.
    + destruct (can_write (create_directory _ _) _) eqn:Hwrite; simpl.
      * split; [reflexivity|]. split; [reflexivity|].
        eexists. split; [right; split; reflexivity|]. auto.
      * split; [reflexivity|]. split; [reflexivity|]. split; [eauto|]. auto.
    + split; [reflexivity|]. split; [reflexivity|]. split; [eauto|]. auto.
Qed.
End Batch_reports.

(** ** The further properties on concrete controllers *)

(** X4 on a queue holding [a/] and [b/], during a run that finds [c/]. *)
Lemma scan_next_takes_the_front_witness :
  currentDirectory
    (snd (@scan_next literal_scan posix listed_files (finding (ok "c/" 200))
            (with_directories ["a/"; "b/"] (filtering [] []))))
  = "a/"
  /\ exists added,
       directories
         (snd (@scan_next literal_scan posix listed_files (finding (ok "c/" 200))
                 (with_directories ["a/"; "b/"] (filtering [] []))))
       = ["b/"] ++ added.
Proof.
  apply (@scan_next_takes_the_front literal_scan posix listed_files
           (finding (ok "c/" 200)) (with_directories ["a/"; "b/"] (filtering [] []))
           "a/" ["b/"]).
  reflexivity.
Defined.

(** X5 on the second of two targets, reached with [admin/] still on the
    queue. *)
Lemma queue_is_kept_between_targets_witness :
  directories
    (snd (@prepare_target posix listed_files (reachable "b" []) "http://b/"
            (with_directories ["admin/"] two_targets)))
  = directories (with_directories ["admin/"] two_targets)
    ++ seeds (arguments (with_directories ["admin/"] two_targets))
  /\ doneDirs
       (snd (@prepare_target posix listed_files (reachable "b" []) "http://b/"
               (with_directories ["admin/"] two_targets)))
     = doneDirs (with_directories ["admin/"] two_targets).
Proof.
  apply (@queue_is_kept_between_targets posix listed_files (reachable "b" [])
           "http://b/" (with_directories ["admin/"] two_targets) (requester_of "b")).
  reflexivity.
Defined.

(** The first target is skipped while [admin/], found under its root, is on
    the queue; the second target is then scanned under [/admin/] before it is
    scanned under its root. *)
Example leftover_directory_is_scanned_on_the_next_target :
  let '(r, final) :=
    @run literal_scan posix listed_files skipped_then_scanned two_targets in
  r = Return tt
  /\ trail (output final)
     = [out_target "http://a/"; out_basePath "/";
        out_target "http://b/"; out_basePath "/admin/"; out_basePath "/"].
Proof. vm_compute. repeat split. Qed.

(** X9 on a run of one result, one miss and one error. *)
Lemma progress_counts_results_not_errors_witness :
  fst (@process_paths literal_scan posix listed_files
         [Match (ok "index" 200); NotFound "backup"; Error "admin" "timed out" "[12:00:00] - "]
         (filtering [] []))
  = Return tt
  /\ index (snd (@process_paths literal_scan posix listed_files
                   [Match (ok "index" 200); NotFound "backup";
                    Error "admin" "timed out" "[12:00:00] - "]
                   (filtering [] [])))
     = index (filtering [] [])
       + progress_of [Match (ok "index" 200); NotFound "backup";
                      Error "admin" "timed out" "[12:00:00] - "].
Proof.
  apply (@progress_counts_results_not_errors literal_scan posix listed_files
           [Match (ok "index" 200); NotFound "backup";
            Error "admin" "timed out" "[12:00:00] - "]
           (filtering [] [])).
  reflexivity.
Defined.

(** X19 on a run of two errors around a miss, with the error log open. *)
Lemma error_log_of_a_run_witness :
  File.written
    (errorLog
       (snd (@process_paths literal_scan posix listed_files
               [Error "admin" "timed out" "[12:00:00] - "; NotFound "backup";
                Error "login" "reset" "[12:00:01] - "]
               (filtering [] []))))
  = File.written (errorLog (filtering [] []))
    ++ (if File.closed (errorLog (filtering [] [])) then []
        else @error_lines posix (currentUrl (filtering [] []))
               [Error "admin" "timed out" "[12:00:00] - "; NotFound "backup";
                Error "login" "reset" "[12:00:01] - "])
  /\ File.closed
       (errorLog
          (snd (@process_paths literal_scan posix listed_files
                  [Error "admin" "timed out" "[12:00:00] - "; NotFound "backup";
                   Error "login" "reset" "[12:00:01] - "]
                  (filtering [] []))))
     = File.closed (errorLog (filtering [] []))
  /\ File.close_calls
       (errorLog
          (snd (@process_paths literal_scan posix listed_files
                  [Error "admin" "timed out" "[12:00:00] - "; NotFound "backup";
                   Error "login" "reset" "[12:00:01] - "]
                  (filtering [] []))))
     = File.close_calls (errorLog (filtering [] [])).
Proof.
  apply (@error_log_of_a_run literal_scan posix listed_files
           [Error "admin" "timed out" "[12:00:00] - "; NotFound "backup";
            Error "login" "reset" "[12:00:01] - "]
           (filtering [] [])).
  reflexivity.
Defined.

(** X10 on a frontier that holds the root, in which [admin/] is found. *)
Lemma wait_returns_with_an_empty_queue_witness :
  directories
    (snd (@wait literal_scan posix listed_files [finding (ok "admin/" 200)]
            (with_directories [""] (filtering [] []))))
  = [].
Proof.
  apply (@wait_returns_with_an_empty_queue literal_scan posix listed_files
           [finding (ok "admin/" 200)] (with_directories [""] (filtering [] []))).
  vm_compute. reflexivity.
Defined.


(** X12 on a run that saves a report in the format [simple]. *)
Lemma autosave_report_on_a_free_file_witness :
  exists manager outputFile,
    reportManager saving_simple = Some manager
    /\ reportManager
         (snd (@setup_reports posix listed_files (requester_of "h") "26-11-03_12-00-00"
                 saving_simple))
       = Some {| ReportManager.outputs :=
                   ReportManager.outputs manager
                   ++ autosave_report (Arguments.autoSaveFormat (arguments saving_simple))
                        (requester_of "h") outputFile
                      :: explicit_reports (arguments saving_simple) (requester_of "h");
                 ReportManager.calls := ReportManager.calls manager |}
    /\ exists_ (fs saving_simple) outputFile = false
    /\ exists_
         (fs (snd (@setup_reports posix listed_files (requester_of "h")
                     "26-11-03_12-00-00" saving_simple)))
         (autosave_directory saving_simple (requester_of "h")) = true
    /\ can_write
         (fs (snd (@setup_reports posix listed_files (requester_of "h")
                     "26-11-03_12-00-00" saving_simple)))
         (autosave_directory saving_simple (requester_of "h")) = true.
Proof.
  apply (@autosave_report_on_a_free_file posix listed_files saving_simple
           (requester_of "h") "26-11-03_12-00-00").
  - reflexivity.
  - vm_compute. reflexivity.
Defined.

(** X13 on a file system in which the reports folder cannot be created. *)
Lemma autosave_failure_ends_the_process_witness :
  1 = 1
  /\ reportManager
       (snd (@setup_reports posix read_only_files (requester_of "h")
               "26-11-03_12-00-00" saving_on_read_only))
     = reportManager saving_on_read_only
  /\ (exists message,
        output (snd (@setup_reports posix read_only_files (requester_of "h")
                       "26-11-03_12-00-00" saving_on_read_only))
        = output saving_on_read_only ++ [out_error message])
  /\ (exists_
        (fs (snd (@setup_reports posix read_only_files (requester_of "h")
                    "26-11-03_12-00-00" saving_on_read_only)))
        (autosave_directory saving_on_read_only (requester_of "h")) = false
      \/ can_write
           (fs (snd (@setup_reports posix read_only_files (requester_of "h")
                       "26-11-03_12-00-00" saving_on_read_only)))
           (autosave_directory saving_on_read_only (requester_of "h")) = false).
Proof.
  apply (@autosave_failure_ends_the_process posix read_only_files saving_on_read_only
           (requester_of "h") "26-11-03_12-00-00" 1).
  - reflexivity.
  - vm_compute. reflexivity.
Defined.

(** X14 on the run over two targets that both have [admin/]. *)
Lemma run_ends_in_one_of_four_ways_witness :
  (exists manager,
      reportManager
        (snd (@run literal_scan posix listed_files both_have_admin two_targets))
      = Some manager
      /\ last (ReportManager.calls manager) = Some ReportManager.close)
  /\ match fst (@run literal_scan posix listed_files both_have_admin two_targets) with
     | Return _ =>
         last (output (snd (@run literal_scan posix listed_files both_have_admin
                              two_targets)))
         = Some (out_warning (String "010" "Task Completed"))
     | Raise e =>
         (e = SystemExit 0
          /\ last (output (snd (@run literal_scan posix listed_files both_have_admin
                                  two_targets)))
             = Some (out_error (String "010" "Canceled by the user")))
         \/ e = SystemExit 1
         \/ e = EOFError
     end.
Proof.
  apply (@run_ends_in_one_of_four_ways literal_scan posix listed_files both_have_admin
           two_targets).
  vm_compute. discriminate.
Defined.

(** X15 on a run whose list of targets is empty. *)
Lemma run_without_targets_witness :
  @run literal_scan posix listed_files both_have_admin
    (@new_controller listed_files "/opt/webscan" no_targets ∅ 2%nat "BATCH" [])
  = (Raise AttributeError,
     with_errorLog (File.close File.open)
       (@new_controller listed_files "/opt/webscan" no_targets ∅ 2%nat "BATCH" [])).
Proof.
  apply (@run_without_targets literal_scan posix listed_files both_have_admin
           "/opt/webscan" no_targets ∅ 2%nat "BATCH" []).
  reflexivity.
Defined.

(** X17 on an installation with a black list for the status 403. *)
Lemma blacklisted_results_witness :
  (@blacklisted listed_files with_blacklist_files (ok "admin" 403)
   <-> exists status,
         Path.status (ok "admin" 403) = Some status
         /\ status ∈ [400; 403; 500]
         /\ @can_read listed_files blacklist_on_disk ["/opt/webscan/db/403_blacklist.txt"]
              (@blacklist_file listed_files "/opt/webscan" status) = true
         /\ Path.path (ok "admin" 403)
            ∈ @get_lines listed_files blacklist_on_disk ["/opt/webscan/db/403_blacklist.txt"]
                (@blacklist_file listed_files "/opt/webscan" status)
         /\ is_comment (Path.path (ok "admin" 403)) = false)
  /\ (@blacklisted listed_files with_blacklist_files (ok "admin" 403) ->
      @match_callback literal_scan listed_files (ok "admin" 403) with_blacklist_files
      = (Return tt, counted with_blacklist_files)).
Proof.
  apply (@blacklisted_results listed_files blacklist_on_disk literal_scan posix
           "/opt/webscan" ["/opt/webscan/db/403_blacklist.txt"] with_blacklist_files
           (ok "admin" 403)).
  reflexivity.
Defined.

(** The black lists read from that installation: the two comments of the
    file for 403 are skipped, and there is no list for 400 or 500. *)
Example blacklist_read_from_disk :
  @get_blacklists listed_files blacklist_on_disk "/opt/webscan"
    ["/opt/webscan/db/403_blacklist.txt"]
  = {[ 403 := ["admin"] ]}.
Proof. vm_compute. reflexivity. Qed.
